(** * Reaction kinetics core of the 0D global model

    A shallow embedding of [src/reactions/reaction.py]: the class
    [Reaction] and its specialisation [ElasticCollisionWithElectron].

    - numpy arrays are lists, read with [getitem] and written with
      [setitem]; both raise [IndexError] out of range, as numpy does;
    - Python exceptions are the left summand of [result];
    - the calls made to the user-supplied [rate_constant] are recorded in
      a log carried next to the outcome of the two evaluation methods;
    - Python numbers are duck-typed: the code is written once over a
      carrier [F] with the operations the source uses, and run on
      binary64 floats (numpy's float64). *)

From Stdlib Require Import ZArith PrimFloat Uint63 FloatOps SpecFloat.
From stdpp Require Import base list strings pretty.

Set Warnings "-inexact-float".
Set Default Proof Using "Type".

(** ** Numbers *)

(** The operations of the source on numbers: integer literals coerced to
    the carrier ([np.zeros], [= 1], [3 * ...]), [*] and unary [-]. *)
Class Num (F : Type) : Type := {
  fromZ : Z -> F;
  mul : F -> F -> F;
  neg : F -> F
}.

(** [-] and [/] are only used by the elastic collision. On a zero divisor
    [/] depends on the type the divisor is stored in: Python's float raises
    [ZeroDivisionError], numpy's float64 returns an infinity or a nan;
    [div_raises] says which of the two the masses are. *)
Class Frac (F : Type) `{Num F} : Type := {
  sub : F -> F -> F;
  div : F -> F -> F;
  is_zero : F -> bool;
  div_raises : bool
}.

Definition zero {F} `{Num F} : F := fromZ 0.
Definition one {F} `{Num F} : F := fromZ 1.

(** numpy's float64. *)
Definition float_of_Z (z : Z) : float :=
  match z with
  | Z0 => 0%float
  | Zpos _ => PrimFloat.of_uint63 (Uint63.of_Z z)
  | Zneg p => PrimFloat.opp (PrimFloat.of_uint63 (Uint63.of_Z (Zpos p)))
  end.

#[global] Instance float_Num : Num float := {|
  fromZ := float_of_Z;
  mul := PrimFloat.mul;
  neg := PrimFloat.opp
|}.

(** Masses stored as Python floats, as the self-test passes them. *)
#[global] Instance float_Frac : Frac float := {|
  sub := PrimFloat.sub;
  div := PrimFloat.div;
  is_zero := fun x => PrimFloat.eqb x 0%float;
  div_raises := true
|}.

(** Masses stored as numpy float64 scalars. *)
Definition float64_Frac : Frac float := {|
  sub := PrimFloat.sub;
  div := PrimFloat.div;
  is_zero := fun x => PrimFloat.eqb x 0%float;
  div_raises := false
|}.

(** ** Exceptions *)

Inductive exn : Type :=
| LookupError (name : string)
| ValueError
| AssertionError (msg : string)
| IndexError
| NameError
| ZeroDivisionError.

Definition result (A : Type) : Type := (exn + A)%type.

#[global] Instance result_ret : MRet result := fun A a => inr a.
#[global] Instance result_bind : MBind result :=
  fun A B f m => match m with inl e => inl e | inr a => f a end.

Definition raise {A} (e : exn) : result A := inl e.

(** [assert cond, msg] *)
Definition py_assert (cond : bool) (msg : string) : result unit :=
  if cond then mret tt else raise (AssertionError msg).

(** [max(l)] on a list of indices; Python raises [ValueError] on an
    empty sequence. *)
Definition py_max (l : list nat) : result nat :=
  match l with
  | [] => raise ValueError
  | x :: xs => mret (foldl Nat.max x xs)
  end.

(** ** Arrays *)

Section Arrays.
Context {A : Type}.

(** [a[i]] *)
Definition getitem (a : list A) (i : nat) : result A :=
  match a !! i with
  | Some x => mret x
  | None => raise IndexError
  end.

(** [a[i] = v] *)
Definition setitem (a : list A) (i : nat) (v : A) : result (list A) :=
  if decide (i < length a) then mret (<[i:=v]> a) else raise IndexError.

(** [a[idxs]], numpy's indexing by a list of integers. *)
Definition getitems (a : list A) (idxs : list nat) : result (list A) :=
  mapM (getitem a) idxs.
End Arrays.

(** [np.zeros(n)] and [np.prod(a)] *)
Definition np_zeros {F} `{Num F} (n : nat) : list F := replicate n zero.
Definition np_prod {F} `{Num F} (a : list F) : F := foldl mul one a.

(** ** The species registry *)

(** Modelled from the spec: the class [Specie] of [src.specie], which is
    not among the sources; an entry carries a name, a mass and an atom
    count (a non-negative integer). *)
Record Specie (F : Type) : Type := {
  name : string;
  mass : F;
  nb_atoms : nat
}.
Arguments name {F} _.
Arguments mass {F} _.
Arguments nb_atoms {F} _.

(** Modelled from the spec: the class [Species] of [src.specie], taken
    through the three members the reactions use. [get_specie_by_name]
    fails with a lookup error on an absent name ([None] here),
    [get_index_by_instance] returns an index and [nb] is the number of
    species. *)
Record Species (F : Type) : Type := {
  get_specie_by_name : string -> option (Specie F);
  get_index_by_instance : Specie F -> nat;
  nb : nat
}.
Arguments get_specie_by_name {F} _ _.
Arguments get_index_by_instance {F} _ _.
Arguments nb {F} _.

(** Modelled from the spec: a registry holding an ordered list of
    entries with unique names; an entry is found by its name and indexed
    by its position. *)
Fixpoint position_of {F} (n : string) (l : list (Specie F)) : nat :=
  match l with
  | [] => 0
  | s :: rest => if String.eqb (name s) n then 0 else S (position_of n rest)
  end.

Definition Species_of_list {F} (l : list (Specie F)) : Species F := {|
  get_specie_by_name := fun n => find (fun s => String.eqb (name s) n) l;
  get_index_by_instance := fun s => position_of (name s) l;
  nb := length l
|}.

(** ** Reactions *)

(** The class of the object a method is called on. *)
Inductive ReactionClass : Type :=
| BaseReaction
| ElasticCollisionWithElectron.

Section Kinetics.
Context {F : Type} `{Num F}.

(** The attributes set by [Reaction.__init__]. *)
Record Reaction : Type := {
  cls : ReactionClass;
  species : Species F;
  reactives : list (Specie F);
  reactives_indices : list nat;
  products : list (Specie F);
  products_indices : list nat;
  stoechio_coeffs : list F;
  energy_threshold : F;
  rate_constant : list F -> F;
  spectators : option (list string)
}.

(** *** Construction *)

(** [self.species.get_specie_by_name(name)] *)
Definition lookup_name (sp : Species F) (n : string) : result (Specie F) :=
  match get_specie_by_name sp n with
  | Some s => mret s
  | None => raise (LookupError n)
  end.

(** [for i in self.reactives_indices: self.stoechio_coeffs[i] = 1];
    the second component is the binding of the loop variable [i] when
    the loop is left. *)
Fixpoint fill_reactives (idxs : list nat) (coeffs : list F) (i : option nat)
  : result (list F * option nat) :=
  match idxs with
  | [] => mret (coeffs, i)
  | j :: rest =>
      coeffs' ← setitem coeffs j one;
      fill_reactives rest coeffs' (Some j)
  end.

(** [for sp in self.products_indices: self.stoechio_coeffs[i] = 1];
    the body reads [i], not the loop variable [sp]. *)
Fixpoint fill_products (idxs : list nat) (coeffs : list F) (i : option nat)
  : result (list F) :=
  match idxs with
  | [] => mret coeffs
  | _ :: rest =>
      match i with
      | None => raise NameError
      | Some j =>
          coeffs' ← setitem coeffs j one;
          fill_products rest coeffs' i
      end
  end.

(** The [else] branch of [if stoechio_coeffs]. *)
Definition default_stoechio_coeffs (n : nat) (ris pis : list nat)
  : result (list F) :=
  '(coeffs, i) ← fill_reactives ris (np_zeros n) None;
  fill_products pis coeffs i.

(** [Reaction.__init__]; [self_cls] is the class of [self]. A list is
    true when it is not empty, so [None] and [[]] both select the
    default coefficients. *)
Definition Reaction_init (self_cls : ReactionClass) (sp : Species F)
    (reactive_names product_names : list string)
    (k : list F -> F) (energy_treshold : F)
    (coeffs : option (list F)) (spect : option (list string))
  : result Reaction :=
  rs ← mapM (lookup_name sp) reactive_names;
  let ris := map (get_index_by_instance sp) rs in
  mr ← py_max ris;
  _ ← py_assert (mr <? nb sp)
        "Reactive index is greater than number of species";
  ps ← mapM (lookup_name sp) product_names;
  let pis := map (get_index_by_instance sp) ps in
  mp ← py_max pis;
  _ ← py_assert (mp <? nb sp)
        "Product index is greater than number of species";
  cs ← match coeffs with
       | Some (c :: l) => mret (c :: l)
       | _ => default_stoechio_coeffs (nb sp) ris pis
       end;
  mret {| cls := self_cls; species := sp;
          reactives := rs; reactives_indices := ris;
          products := ps; products_indices := pis;
          stoechio_coeffs := cs;
          energy_threshold := energy_treshold;
          rate_constant := k;
          spectators := spect |}.

(** [ElasticCollisionWithElectron.__init__] *)
Definition Elastic_init (sp : Species F) (colliding_specie : string)
    (k : list F -> F) (energy_treshold : F) : result Reaction :=
  Reaction_init ElasticCollisionWithElectron sp
    [colliding_specie] [colliding_specie] k energy_treshold None None.

(** *** Evaluation *)

(** An evaluation yields the arguments [rate_constant] was called on,
    in order, and its outcome. *)
Definition Eval (A : Type) : Type := (list (list F) * result A)%type.

#[global] Instance Eval_ret : MRet Eval := fun A a => ([], inr a).
#[global] Instance Eval_bind : MBind Eval :=
  fun A B f m =>
    match m with
    | (log, inl e) => (log, inl e)
    | (log, inr a) => let '(log', r) := f a in (log ++ log', r)
    end.

Definition lift {A} (r : result A) : Eval A := ([], r).
Definition call (k : list F -> F) (arg : list F) : Eval F :=
  ([arg], inr (k arg)).

Definition calls {A} (m : Eval A) : list (list F) := fst m.
Definition outcome {A} (m : Eval A) : result A := snd m.

(** The two loops of [density_change_rate]: for every [sp] of [sps],
    [i = get_index_by_instance(sp)] and
    [rate[i] = v * self.stoechio_coeffs[i]]. *)
Fixpoint assign_rates (sp : Species F) (coeffs : list F) (v : F)
    (sps : list (Specie F)) (rate : list F) : result (list F) :=
  match sps with
  | [] => mret rate
  | s :: rest =>
      let i := get_index_by_instance sp s in
      c ← getitem coeffs i;
      rate' ← setitem rate i (mul v c);
      assign_rates sp coeffs v rest rate'
  end.

(** [Reaction.density_change_rate]; unary [+] is the identity. *)
Definition Reaction_density_change_rate (self : Reaction) (state : list F)
  : Eval (list F) :=
  let sp := species self in
  K ← call (rate_constant self) (drop (nb sp) state);
  densities ← lift (getitems state (reactives_indices self));
  let product := mul K (np_prod densities) in
  let rate := np_zeros (nb sp) in
  rate ← lift (assign_rates sp (stoechio_coeffs self) (neg product)
                 (reactives self) rate);
  rate ← lift (assign_rates sp (stoechio_coeffs self) product
                 (products self) rate);
  mret rate.

(** [Reaction.electron_loss_power] *)
Definition Reaction_electron_loss_power (self : Reaction) (state : list F)
  : Eval F :=
  K ← call (rate_constant self) state;
  densities ← lift (getitems state (reactives_indices self));
  let power_loss := mul (mul (energy_threshold self) K) (np_prod densities) in
  mret power_loss.

(** [ElasticCollisionWithElectron.density_change_rate] *)
Definition Elastic_density_change_rate (self : Reaction) (state : list F)
  : Eval (list F) :=
  mret (np_zeros (nb (species self))).

(** *** Invariants *)

(** The invariants of a constructed reaction: the index lists are the
    registry indices of the species lists, they are not empty (or [max]
    would have raised) and every index is below [nb] (or an [assert]
    would have failed). *)
Record invariant (r : Reaction) : Prop := {
  inv_reactives : reactives_indices r
                  = map (get_index_by_instance (species r)) (reactives r);
  inv_products : products_indices r
                 = map (get_index_by_instance (species r)) (products r);
  inv_reactives_lt : Forall (fun i => i < nb (species r)) (reactives_indices r);
  inv_products_lt : Forall (fun i => i < nb (species r)) (products_indices r);
  inv_reactives_ne : reactives_indices r <> [];
  inv_products_ne : products_indices r <> []
}.

End Kinetics.
Arguments Reaction F : clear implicits.
Arguments Eval F A : clear implicits.

Section Elastic.
Context {F : Type} `{Frac F}.

(** [scipy.constants.m_e] and [scipy.constants.k], imported by the
    module; their values are scipy's and are left open here. *)
Variables m_e k_B : F.

(** [a / b]: on a zero divisor a Python float raises and a numpy float64
    gives the infinity or nan of the division. *)
Definition py_div (a b : F) : result F :=
  if is_zero b then
    if div_raises then raise ZeroDivisionError else mret (div a b)
  else mret (div a b).

(** [ElasticCollisionWithElectron.electron_loss_power] *)
Definition Elastic_electron_loss_power (self : Reaction F) (state : list F)
  : Eval F F :=
  let sp := species self in
  K ← call (rate_constant self) state;
  s ← lift (getitem (reactives self) 0);
  mass_ratio ← lift (py_div m_e (mass s));
  t_e ← lift (getitem state (nb sp));
  t_s ← lift (getitem state (nb sp + nb_atoms s));
  let delta_temp := sub t_e t_s in
  n_e ← lift (getitem state 0);
  i ← lift (getitem (reactives_indices self) 0);
  n_s ← lift (getitem state i);
  let energy_change :=
    mul (mul (mul (mul (mul (mul (fromZ 3) mass_ratio) k_B) delta_temp)
                n_e) n_s) K in
  mret energy_change.

(** Method resolution: [self.density_change_rate(state)] and
    [self.electron_loss_power(state)] run the override of the class of
    [self]. *)
Definition density_change_rate (self : Reaction F) (state : list F)
  : Eval F (list F) :=
  match cls self with
  | BaseReaction => Reaction_density_change_rate self state
  | ElasticCollisionWithElectron => Elastic_density_change_rate self state
  end.

Definition electron_loss_power (self : Reaction F) (state : list F)
  : Eval F F :=
  match cls self with
  | BaseReaction => Reaction_electron_loss_power self state
  | ElasticCollisionWithElectron => Elastic_electron_loss_power self state
  end.
End Elastic.

(** ** String rendering *)

(** What [__str__] asks of a coefficient: [coeff.is_integer()],
    [f"{int(coeff)}"], [coeff == 1] and [f"{coeff:.2f}"]. *)
Class Show (F : Type) : Type := {
  is_integer : F -> bool;
  int_str : F -> string;
  is_one : F -> bool;
  fixed2 : F -> string
}.

(** On float64. A finite float is [m * 2 ^ e] with a sign; it is a whole
    number when [e] is not negative or [2 ^ -e] divides [m]. *)
Definition float_is_integer (x : float) : bool :=
  match Prim2SF x with
  | S754_zero _ => true
  | S754_finite _ m e => (0 <=? e)%Z || (Z.pos m mod 2 ^ (- e) =? 0)%Z
  | _ => false
  end.

(** [int(x)], which truncates. *)
Definition float_int (x : float) : Z :=
  match Prim2SF x with
  | S754_finite s m e =>
      let a := if (0 <=? e)%Z then Z.pos m * 2 ^ e else Z.pos m / 2 ^ (- e) in
      if s then - a else a
  | _ => 0
  end%Z.

(** [num / den] rounded to the nearest integer, ties to the even one. *)
Definition round_half_even (num den : Z) : Z :=
  let q := (num / den)%Z in
  let rm := (num mod den)%Z in
  if (2 * rm <? den)%Z then q
  else if (den <? 2 * rm)%Z then (q + 1)%Z
  else if Z.even q then q else (q + 1)%Z.

(** [f"{x:.2f}"]: the exact value rounded to two decimals, ties to even,
    with the sign of [x]. *)
Definition float_fixed2 (x : float) : string :=
  match Prim2SF x with
  | S754_nan => "nan"
  | S754_infinity s => if s then "-inf" else "inf"
  | S754_zero s => if s then "-0.00" else "0.00"
  | S754_finite s m e =>
      let n := if (0 <=? e)%Z then (Z.pos m * 2 ^ e * 100)%Z
               else round_half_even (Z.pos m * 100) (2 ^ (- e)) in
      (if s then "-" else "") +:+ pretty (n / 100)%Z +:+ "."
        +:+ pretty (n mod 100 / 10)%Z +:+ pretty (n mod 10)%Z
  end.

#[global] Instance float_Show : Show float := {|
  is_integer := float_is_integer;
  int_str := fun x => pretty (float_int x);
  is_one := fun x => PrimFloat.eqb x 1%float;
  fixed2 := float_fixed2
|}.

(** [str.strip()]. A Python string is held as its UTF-8 bytes. The white
    space of Python is the characters U+0009 to U+000D, U+001C to U+0020,
    U+0085, U+00A0, U+1680, U+2000 to U+200A, U+2028, U+2029, U+202F,
    U+205F and U+3000: one byte each up to U+0020, two bytes [C2 85] and
    [C2 A0], and three bytes for the others. *)
Definition is_space (a : Ascii.ascii) : bool :=
  let n := Ascii.nat_of_ascii a in
  (9 <=? n) && (n <=? 13) || (28 <=? n) && (n <=? 32).

Definition is_space2 (a b : Ascii.ascii) : bool :=
  let '(x, y) := (Ascii.nat_of_ascii a, Ascii.nat_of_ascii b) in
  (x =? 194) && ((y =? 133) || (y =? 160)).

Definition is_space3 (a b c : Ascii.ascii) : bool :=
  let '(x, y, z) :=
    (Ascii.nat_of_ascii a, Ascii.nat_of_ascii b, Ascii.nat_of_ascii c) in
  (x =? 225) && (y =? 154) && (z =? 128)
  || (x =? 226) && (y =? 128)
     && ((128 <=? z) && (z <=? 138) || (z =? 168) || (z =? 169) || (z =? 175))
  || (x =? 226) && (y =? 129) && (z =? 159)
  || (x =? 227) && (y =? 128) && (z =? 128).

(** Dropping the white space at the front of [s]; with [backwards] the
    bytes of [s] come last byte first, as they do from the end of a
    string. *)
Fixpoint drop_spaces (backwards : bool) (s : string) : string :=
  match s with
  | EmptyString => EmptyString
  | String a rest =>
      if is_space a then drop_spaces backwards rest
      else
        match rest with
        | EmptyString => s
        | String b rest2 =>
            if (if backwards then is_space2 b a else is_space2 a b)
            then drop_spaces backwards rest2
            else
              match rest2 with
              | EmptyString => s
              | String c rest3 =>
                  if (if backwards then is_space3 c b a else is_space3 a b c)
                  then drop_spaces backwards rest3
                  else s
              end
        end
  end.

Definition lstrip (s : string) : string := drop_spaces false s.
Definition rstrip (s : string) : string :=
  String.rev (drop_spaces true (String.rev s)).
Definition strip (s : string) : string := rstrip (lstrip s).

(** The string of the given UTF-8 bytes. *)
Definition utf8 (bytes : list nat) : string :=
  foldr (fun n s => String (Ascii.ascii_of_nat n) s) EmptyString bytes.

Section Rendering.
Context {F : Type} `{Show F}.

(** The text of a coefficient: nothing for 1, the integer for another
    whole number, two decimals otherwise. *)
Definition coeff_str (coeff : F) : string :=
  if is_integer coeff then
    if is_one coeff then "" else int_str coeff
  else fixed2 coeff.

(** [f"{coeff_str} {sp.name}".strip()] *)
Definition term (coeff : F) (sp : Specie F) : string :=
  strip (coeff_str coeff +:+ " " +:+ name sp).

(** The loop of [format_species] over [zip(species_indices, species)]. *)
Fixpoint format_terms (coeffs : list F) (pairs : list (nat * Specie F))
  : result (list string) :=
  match pairs with
  | [] => mret []
  | (idx, sp) :: rest =>
      coeff ← getitem coeffs idx;
      terms ← format_terms coeffs rest;
      mret (term coeff sp :: terms)
  end.

(** [format_species], local to [__str__]. *)
Definition format_species (self : Reaction F)
    (sps : list (Specie F)) (species_indices : list nat) : result string :=
  terms ← format_terms (stoechio_coeffs self) (zip species_indices sps);
  mret (String.concat " + " terms).

(** [Reaction.__str__]; [k_name] is [self.rate_constant.__name__], the
    name the rate-constant function was defined under. *)
Definition Reaction_str (self : Reaction F) (k_name : string) : result string :=
  reactives_str ← format_species self (reactives self) (reactives_indices self);
  products_str ← format_species self (products self) (products_indices self);
  mret (reactives_str +:+ " -> " +:+ products_str
          +:+ "          K_r = " +:+ k_name).
End Rendering.

(** ** Scenarios *)

(** The self-test at the end of the module. *)
Module Scenario.
Definition K_diss_I2 (Ts : list float) : float := 2%float.

Definition I (n : string) : Specie float :=
  {| name := n; mass := 10.57e-27%float; nb_atoms := 0 |}.

Definition species_list : Species float :=
  Species_of_list [I "I0"; I "I1"; I "I2"; I "I3"; I "I4"; I "I5"].

Definition reac : result (Reaction float) :=
  Reaction_init BaseReaction species_list ["I2"; "I4"] ["I5"]
    K_diss_I2 10%float None None.

Definition state : list float :=
  [1; 2; 3; 4; 5; 6; -181; -182]%float.

(** The object [reac] is bound to. *)
Definition built : Reaction float :=
  {| cls := BaseReaction; species := species_list;
     reactives := [I "I2"; I "I4"]; reactives_indices := [2; 4];
     products := [I "I5"]; products_indices := [5];
     stoechio_coeffs := [0; 0; 1; 0; 1; 0]%float;
     energy_threshold := 10%float;
     rate_constant := K_diss_I2;
     spectators := None |}.

(** The same reaction with every coefficient given. *)
Definition built_explicit : Reaction float :=
  {| cls := BaseReaction; species := species_list;
     reactives := [I "I2"; I "I4"]; reactives_indices := [2; 4];
     products := [I "I5"]; products_indices := [5];
     stoechio_coeffs := [0; 0; 1; 0; 1; 2]%float;
     energy_threshold := 10%float;
     rate_constant := K_diss_I2;
     spectators := None |}.

(** A reaction in which [I4] is a reactive and a product. *)
Definition catalytic : Reaction float :=
  {| cls := BaseReaction; species := species_list;
     reactives := [I "I2"; I "I4"]; reactives_indices := [2; 4];
     products := [I "I4"; I "I5"]; products_indices := [4; 5];
     stoechio_coeffs := [0; 0; 1; 0; 1; 0]%float;
     energy_threshold := 10%float;
     rate_constant := K_diss_I2;
     spectators := None |}.





End Scenario.

(** An electron, an atom and a molecule; the state holds three densities
    and the temperatures of the electrons, the atoms and the molecules. *)
Module ElasticScenario.
Definition m_e : float := 9.1093837015e-31%float.
Definition k_B : float := 1.380649e-23%float.

Definition electron : Specie float :=
  {| name := "e"; mass := m_e; nb_atoms := 0 |}.
Definition atom : Specie float :=
  {| name := "I"; mass := 2.1e-25%float; nb_atoms := 1 |}.
Definition molecule : Specie float :=
  {| name := "I2"; mass := 4.2e-25%float; nb_atoms := 2 |}.

Definition species_list : Species float :=
  Species_of_list [electron; atom; molecule].

Definition K_el (st : list float) : float := 1e-13%float.

Definition state : list float :=
  [1e16; 2e18; 3e18; 30000; 500; 400]%float.

Definition built : Reaction float :=
  {| cls := ElasticCollisionWithElectron; species := species_list;
     reactives := [molecule]; reactives_indices := [2];
     products := [molecule]; products_indices := [2];
     stoechio_coeffs := [0; 0; 1]%float;
     energy_threshold := 0%float;
     rate_constant := K_el;
     spectators := None |}.
End ElasticScenario.

(** A registry that breaks its contract: it reports six species and
    indexes every one of them at 7. *)
Module BrokenRegistry.
Definition species_list : Species float :=
  {| get_specie_by_name :=
       fun n => Some {| name := n; mass := 1%float; nb_atoms := 0 |};
     get_index_by_instance := fun _ => 7;
     nb := 6 |}.

Definition K (Ts : list float) : float := 2%float.
End BrokenRegistry.

(** Variations of the two scenarios: other products, coefficients and
    thresholds, and a collision with a species without mass. *)
Module Cases.
Definition selftest_like (ps : list (Specie float)) (pis : list nat)
    (coeffs : list float) (thr : float) : Reaction float :=
  {| cls := BaseReaction; species := Scenario.species_list;
     reactives := [Scenario.I "I2"; Scenario.I "I4"]; reactives_indices := [2; 4];
     products := ps; products_indices := pis;
     stoechio_coeffs := coeffs;
     energy_threshold := thr;
     rate_constant := Scenario.K_diss_I2;
     spectators := None |}.

Definition elastic_like (thr : float) : Reaction float :=
  {| cls := ElasticCollisionWithElectron;
     species := ElasticScenario.species_list;
     reactives := [ElasticScenario.molecule]; reactives_indices := [2];
     products := [ElasticScenario.molecule]; products_indices := [2];
     stoechio_coeffs := [0; 0; 1]%float;
     energy_threshold := thr;
     rate_constant := ElasticScenario.K_el;
     spectators := None |}.

Definition massless : Specie float :=
  {| name := "ph"; mass := 0%float; nb_atoms := 0 |}.

Definition massless_list : Species float :=
  Species_of_list [ElasticScenario.electron; massless].

Definition massless_built : Reaction float :=
  {| cls := ElasticCollisionWithElectron; species := massless_list;
     reactives := [massless]; reactives_indices := [1];
     products := [massless]; products_indices := [1];
     stoechio_coeffs := [0; 1]%float;
     energy_threshold := 0%float;
     rate_constant := ElasticScenario.K_el;
     spectators := None |}.
End Cases.

(** * Properties *)

Ltac unfold_monad :=
  unfold mbind, mret, result_bind, result_ret, Eval_bind, Eval_ret,
    raise, lift, call, calls, outcome in *.

(** ** Arrays *)

Section ArrayFacts.
Context {A : Type}.
Implicit Types (a : list A) (i : nat) (idxs : list nat).

Lemma getitem_Some a i x : a !! i = Some x -> getitem a i = inr x.
Proof. intros Hx. unfold getitem. by rewrite Hx. Qed.

Lemma getitem_lt a i : i < length a -> exists x, a !! i = Some x /\ getitem a i = inr x.
Proof.
  intros Hi. destruct (lookup_lt_is_Some_2 a i Hi) as [x Hx].
  exists x. split; [done | by apply getitem_Some].
Qed.

Lemma setitem_lt a i v : i < length a -> setitem a i v = inr (<[i:=v]> a).
Proof. intros Hi. unfold setitem. by rewrite decide_True. Qed.

Lemma getitems_lt a idxs :
  Forall (fun i => i < length a) idxs ->
  exists xs, getitems a idxs = inr xs /\ Forall2 (fun i x => a !! i = Some x) idxs xs.
Proof.
  unfold getitems. induction 1 as [|i idxs Hi _ IH].
  - exists []. by split.
  - destruct IH as (xs & Hxs & Hall).
    destruct (getitem_lt a i Hi) as (x & Hx & Hget).
    exists (x :: xs). split; [| by constructor].
    simpl. rewrite Hget. unfold_monad. by rewrite Hxs.
Qed.
End ArrayFacts.

Lemma py_max_lt (l : list nat) (n m : nat) :
  py_max l = inr m -> (m < n <-> Forall (fun i => i < n) l).
Proof.
  destruct l as [|x xs]; [discriminate |].
  unfold py_max, mret, result_ret. intros [= <-].
  revert x. induction xs as [|y ys IH]; intros x; simpl.
  - split; [intros ?; by repeat constructor | by inversion 1].
  - rewrite IH, !Forall_cons, Nat.max_lub_lt_iff. tauto.
Qed.

Lemma np_zeros_length {F} `{Num F} (n : nat) : length (np_zeros n) = n.
Proof. apply length_replicate. Qed.

Lemma np_zeros_lookup {F} `{Num F} (n i : nat) :
  i < n -> np_zeros (F:=F) n !! i = Some zero.
Proof. intros Hi. by apply lookup_replicate_2. Qed.

(** ** The two assignment loops of [density_change_rate] *)

Section Loops.
Context {F : Type} `{Num F}.
Implicit Types (sp : Species F) (sps : list (Specie F)) (rate coeffs : list F).

(** With every index in range the loop runs to its end; an index it
    visits holds [v * coeffs[j]] afterwards, the others are left as they
    were. *)
Lemma assign_rates_spec sp coeffs v sps rate :
  Forall (fun s => get_index_by_instance sp s < length rate
                   /\ get_index_by_instance sp s < length coeffs) sps ->
  exists rate',
    assign_rates sp coeffs v sps rate = inr rate'
    /\ length rate' = length rate
    /\ (forall j, j ∈ map (get_index_by_instance sp) sps ->
          exists c, coeffs !! j = Some c /\ rate' !! j = Some (mul v c))
    /\ (forall j, j ∉ map (get_index_by_instance sp) sps ->
          rate' !! j = rate !! j).
Proof.
  intros Hall. revert rate Hall.
  induction sps as [|s rest IH]; intros rate Hall.
  - exists rate. split; [done | split; [done | split; [| done]]].
    intros j Hj. by apply elem_of_nil in Hj.
  - apply Forall_cons in Hall as [[Hr Hc] Hall].
    destruct (getitem_lt coeffs _ Hc) as (c & Hlook & Hget).
    set (i := get_index_by_instance sp s) in *.
    destruct (IH (<[i:=mul v c]> rate)) as (rate' & Hrun & Hlen & Hin & Hout).
    { eapply Forall_impl; [exact Hall |]. intros s' [? ?].
      by rewrite length_insert. }
    exists rate'. split; [| split; [| split]].
    + simpl. fold i. rewrite Hget. unfold_monad.
      by rewrite (setitem_lt rate i _ Hr).
    + by rewrite Hlen, length_insert.
    + intros j Hj. simpl in Hj.
      destruct (decide (j ∈ map (get_index_by_instance sp) rest)) as [Hrest|Hrest].
      * by apply Hin.
      * apply elem_of_cons in Hj as [-> | Hj]; [| done].
        exists c. split; [done |].
        rewrite (Hout _ Hrest). by apply list_lookup_insert_eq.
    + intros j Hj. simpl in Hj. apply not_elem_of_cons in Hj as [Hne Hj].
      rewrite (Hout _ Hj). by apply list_lookup_insert_ne.
Qed.
End Loops.

(** ** What the constructor establishes *)

Section Construction.
Context {F : Type} `{Num F}.
Implicit Types (sp : Species F) (r : Reaction F) (coeffs : list F).

Lemma py_max_nonempty (l : list nat) m : py_max l = inr m -> l <> [].
Proof. by destruct l. Qed.

Lemma py_assert_inr (b : bool) msg u : py_assert b msg = inr u -> b = true.
Proof. by destruct b. Qed.

(** A successful [Reaction.__init__] stores its arguments, resolves the
    names in order and leaves the invariants established. *)
Lemma Reaction_init_inr c sp rn pn k thr co sx r :
  Reaction_init c sp rn pn k thr co sx = inr r ->
  cls r = c /\ species r = sp /\ rate_constant r = k
  /\ energy_threshold r = thr /\ spectators r = sx
  /\ mapM (lookup_name sp) rn = inr (reactives r)
  /\ mapM (lookup_name sp) pn = inr (products r)
  /\ invariant r
  /\ match co with
     | Some (x :: l) => stoechio_coeffs r = x :: l
     | _ => default_stoechio_coeffs (nb sp) (reactives_indices r)
              (products_indices r) = inr (stoechio_coeffs r)
     end.
Proof.
  unfold Reaction_init.
  destruct (mapM (lookup_name sp) rn) as [e|rs] eqn:Hrs; [discriminate |].
  unfold mbind at 1, result_bind at 1.
  destruct (py_max (map (get_index_by_instance sp) rs)) as [e|mr] eqn:Hmr;
    [discriminate |].
  unfold mbind at 1, result_bind at 1.
  destruct (py_assert (mr <? nb sp) _) as [e|[]] eqn:Har; [discriminate |].
  unfold mbind at 1, result_bind at 1.
  destruct (mapM (lookup_name sp) pn) as [e|ps] eqn:Hps; [discriminate |].
  unfold mbind at 1, result_bind at 1.
  destruct (py_max (map (get_index_by_instance sp) ps)) as [e|mp] eqn:Hmp;
    [discriminate |].
  unfold mbind at 1, result_bind at 1.
  destruct (py_assert (mp <? nb sp) _) as [e|[]] eqn:Hap; [discriminate |].
  unfold mbind at 1, result_bind at 1.
  apply py_assert_inr, Nat.ltb_lt in Har, Hap.
  pose proof (proj1 (py_max_lt _ (nb sp) _ Hmr) Har) as Hrlt.
  pose proof (proj1 (py_max_lt _ (nb sp) _ Hmp) Hap) as Hplt.
  apply py_max_nonempty in Hmr, Hmp.
  match goal with
  | |- context [mbind _ ?m] => destruct m as [e|cs] eqn:Hcs
  end; [discriminate |].
  unfold mbind, result_bind, mret, result_ret. intros [= <-]. simpl.
  repeat (split; [done |]).
  destruct co as [[|x l]|]; try done.
  unfold mret, result_ret in Hcs. congruence.
Qed.
End Construction.

(** ** The default stoichiometric coefficients *)

Section DefaultCoeffs.
Context {F : Type} `{Num F}.
Implicit Types (coeffs : list F) (idxs ris pis : list nat).

(** The first loop writes a 1 at every index it visits and leaves [i]
    bound to the last of them. *)
Lemma fill_reactives_spec idxs coeffs i0 :
  Forall (fun j => j < length coeffs) idxs ->
  fill_reactives idxs coeffs i0
  = inr (foldl (fun c j => <[j:=one]> c) coeffs idxs,
         match last idxs with Some j => Some j | None => i0 end).
Proof.
  intros Hall. revert coeffs i0 Hall.
  induction idxs as [|j rest IH]; intros coeffs i0 Hall; [done |].
  apply Forall_cons in Hall as [Hj Hall].
  simpl fill_reactives. rewrite (setitem_lt coeffs j _ Hj). unfold_monad.
  rewrite IH by (by rewrite length_insert).
  simpl foldl. destruct rest as [|j' rest']; [done |].
  rewrite last_cons_cons.
  destruct (last (j' :: rest')) eqn:Hlast; [done | by apply last_None in Hlast].
Qed.

(** The second loop writes the same slot [i] once per product. *)
Lemma fill_products_spec idxs coeffs j :
  j < length coeffs ->
  fill_products idxs coeffs (Some j)
  = inr (match idxs with [] => coeffs | _ => <[j:=one]> coeffs end).
Proof.
  intros Hj. revert coeffs Hj.
  induction idxs as [|p rest IH]; intros coeffs Hj; [done |].
  simpl fill_products. rewrite (setitem_lt coeffs j _ Hj). unfold_monad.
  rewrite IH by (by rewrite length_insert).
  destruct rest; [done |]. by rewrite list_insert_insert_eq.
Qed.

Lemma foldl_insert_length idxs coeffs (v : F) :
  length (foldl (fun c j => <[j:=v]> c) coeffs idxs) = length coeffs.
Proof.
  revert coeffs. induction idxs as [|j rest IH]; intros coeffs; [done |].
  simpl. by rewrite IH, length_insert.
Qed.

Lemma foldl_insert_lookup idxs coeffs (v : F) i :
  i < length coeffs ->
  foldl (fun c j => <[j:=v]> c) coeffs idxs !! i
  = if decide (i ∈ idxs) then Some v else coeffs !! i.
Proof.
  revert coeffs. induction idxs as [|j rest IH]; intros coeffs Hi.
  - by rewrite decide_False by apply not_elem_of_nil.
  - simpl. rewrite IH by (by rewrite length_insert).
    destruct (decide (i ∈ rest)) as [Hin|Hout].
    + rewrite decide_True; [done | by right].
    + destruct (decide (i = j)) as [->|Hne].
      * rewrite decide_True by left. by apply list_lookup_insert_eq.
      * rewrite decide_False by (by apply not_elem_of_cons).
        by apply list_lookup_insert_ne.
Qed.

(** What the [else] branch computes: a vector of length [n] holding 1
    at the reactive indices and 0 everywhere else. The product indices
    play no part in it. *)
Lemma default_stoechio_coeffs_spec n ris pis :
  ris <> [] -> Forall (fun i => i < n) ris ->
  exists cs : list F,
    default_stoechio_coeffs n ris pis = inr cs
    /\ length cs = n
    /\ forall i, i < n ->
         cs !! i = Some (if decide (i ∈ ris) then one else zero).
Proof.
  intros Hne Hlt. unfold default_stoechio_coeffs.
  rewrite fill_reactives_spec by (by rewrite np_zeros_length).
  unfold_monad.
  destruct (last ris) as [j|] eqn:Hlast;
    [| by apply last_None in Hlast].
  assert (j ∈ ris) as Hj by (by apply last_Some_elem_of).
  assert (j < n) as Hjn by (by eapply Forall_forall in Hlt).
  set (cs := foldl _ _ ris).
  assert (length cs = n) as Hlen
    by (unfold cs; by rewrite foldl_insert_length, np_zeros_length).
  assert (forall i, i < n ->
            cs !! i = Some (if decide (i ∈ ris) then one else zero)) as Hcs.
  { intros i Hi. unfold cs.
    rewrite foldl_insert_lookup by (by rewrite np_zeros_length).
    case_decide; [done | by apply np_zeros_lookup]. }
  rewrite fill_products_spec by lia.
  destruct pis as [|p pis']; [by exists cs |].
  exists (<[j:=one]> cs). split; [done |].
  split; [by rewrite length_insert |].
  intros i Hi. destruct (decide (i = j)) as [->|Hij].
  - rewrite list_lookup_insert_eq by lia. by rewrite decide_True.
  - rewrite list_lookup_insert_ne by done. by apply Hcs.
Qed.
End DefaultCoeffs.

(** ** The base class *)

Section BaseClass.
Context {F : Type} `{Num F}.
Implicit Types (sp : Species F) (r : Reaction F) (state : list F).

(** [density_change_rate] on a reaction that satisfies the invariants,
    with one coefficient per species, and a state that holds at least
    the densities: the call succeeds and every entry is determined. *)
Lemma Reaction_density_change_rate_spec r state :
  invariant r ->
  length (stoechio_coeffs r) = nb (species r) ->
  nb (species r) <= length state ->
  exists densities rate,
    getitems state (reactives_indices r) = inr densities
    /\ Reaction_density_change_rate r state
       = ([drop (nb (species r)) state], inr rate)
    /\ length rate = nb (species r)
    /\ let product :=
         mul (rate_constant r (drop (nb (species r)) state))
             (np_prod densities) in
       (forall j, j ∈ products_indices r ->
          exists c, stoechio_coeffs r !! j = Some c
                    /\ rate !! j = Some (mul product c))
       /\ (forall j, j ∈ reactives_indices r -> j ∉ products_indices r ->
             exists c, stoechio_coeffs r !! j = Some c
                       /\ rate !! j = Some (mul (neg product) c))
       /\ (forall j, j ∉ reactives_indices r -> j ∉ products_indices r ->
             rate !! j = np_zeros (nb (species r)) !! j).
Proof.
  intros [Hris Hpis Hrlt Hplt _ _] Hlen Hstate.
  destruct (getitems_lt state (reactives_indices r)) as (xs & Hxs & _).
  { eapply Forall_impl; [exact Hrlt |]. intros i Hi. simpl in Hi. lia. }
  set (product := mul (rate_constant r (drop (nb (species r)) state))
                      (np_prod xs)).
  destruct (assign_rates_spec (species r) (stoechio_coeffs r) (neg product)
              (reactives r) (np_zeros (nb (species r))))
    as (rate1 & Hrun1 & Hlen1 & Hin1 & Hout1).
  { rewrite Hris in Hrlt. apply Forall_map in Hrlt.
    eapply Forall_impl; [exact Hrlt |]. intros s Hs. simpl in Hs.
    rewrite np_zeros_length. lia. }
  destruct (assign_rates_spec (species r) (stoechio_coeffs r) product
              (products r) rate1)
    as (rate2 & Hrun2 & Hlen2 & Hin2 & Hout2).
  { rewrite Hpis in Hplt. apply Forall_map in Hplt.
    eapply Forall_impl; [exact Hplt |]. intros s Hs. simpl in Hs.
    rewrite Hlen1, np_zeros_length. lia. }
  rewrite <- Hris in Hin1, Hout1. rewrite <- Hpis in Hin2, Hout2.
  exists xs, rate2. split; [done |]. split; [| split; [| split; [| split]]].
  - unfold Reaction_density_change_rate. rewrite Hxs. unfold_monad. simpl.
    fold product. rewrite Hrun1, Hrun2. done.
  - by rewrite Hlen2, Hlen1, np_zeros_length.
  - exact Hin2.
  - intros j Hr Hp. rewrite (Hout2 _ Hp). by apply Hin1.
  - intros j Hr Hp. rewrite (Hout2 _ Hp). by apply Hout1.
Qed.

End BaseClass.

Section BaseClassLaws.
Context {F : Type} `{Num F}.
Implicit Types (sp : Species F) (r : Reaction F) (state : list F).

(** [electron_loss_power] calls [rate_constant] on the state, reads the
    reactive densities and multiplies; no other attribute is read. *)
Lemma Reaction_electron_loss_power_unfold r state :
  Reaction_electron_loss_power r state
  = ([state],
     densities ← getitems state (reactives_indices r);
     mret (mul (mul (energy_threshold r) (rate_constant r state))
               (np_prod densities))).
Proof.
  unfold Reaction_electron_loss_power. unfold_monad. simpl.
  by destruct (getitems state (reactives_indices r)).
Qed.

(** The only entry [density_change_rate] appends to the call log is the
    one of its first statement. *)
Lemma Reaction_density_change_rate_calls r state :
  calls (Reaction_density_change_rate r state) = [drop (nb (species r)) state].
Proof.
  unfold Reaction_density_change_rate. unfold_monad. simpl.
  destruct (getitems state (reactives_indices r)) as [e|xs]; [done |].
  destruct (assign_rates _ _ (neg _) _ _) as [e|rate1]; [done |].
  by destruct (assign_rates _ _ _ _ rate1).
Qed.

(** C3: when an index is both a reactive index and a product index,
    [density_change_rate] writes the entry first in the reactives loop
    and again in the products loop; the returned entry is
    [+product * stoechio_coeffs[index]], where [product] is the rate
    constant at [state[N:]] times the product of the reactive densities.
    The two contributions are not added. *)
Theorem density_change_rate_products_branch_wins
    c sp rn pn k thr co sx r state j :
  Reaction_init c sp rn pn k thr co sx = inr r ->
  length (stoechio_coeffs r) = nb sp ->
  nb sp <= length state ->
  j ∈ reactives_indices r ->
  j ∈ products_indices r ->
  exists densities cj rate,
    getitems state (reactives_indices r) = inr densities
    /\ stoechio_coeffs r !! j = Some cj
    /\ outcome (Reaction_density_change_rate r state) = inr rate
    /\ rate !! j = Some (mul (mul (k (drop (nb sp) state)) (np_prod densities)) cj).
Proof.
  intros Hinit Hlen Hstate _ Hp.
  apply Reaction_init_inr in Hinit as (_ & Hsp & Hk & _ & _ & _ & _ & Hinv & _).
  rewrite <- Hsp in Hlen, Hstate.
  destruct (Reaction_density_change_rate_spec r state Hinv Hlen Hstate)
    as (xs & rate & Hxs & Hrun & _ & Hprod & _).
  destruct (Hprod j Hp) as (cj & Hcj & Hj).
  exists xs, cj, rate. rewrite Hrun. subst sp k. done.
Qed.

(** C4: [density_change_rate] calls [rate_constant] once, on the
    temperature part [state[N:]] of the state, and [electron_loss_power]
    calls it once, on the whole state. *)
Theorem rate_constant_call_conventions r state :
  calls (Reaction_density_change_rate r state) = [drop (nb (species r)) state]
  /\ calls (Reaction_electron_loss_power r state) = [state].
Proof.
  split.
  - apply Reaction_density_change_rate_calls.
  - by rewrite Reaction_electron_loss_power_unfold.
Qed.

(** C5: on a constructed reaction with one coefficient per species and a
    state that holds the [N] densities, [density_change_rate] returns a
    vector of length [N] whose entries outside the reactive and product
    indices are 0. *)
Theorem density_change_rate_length_and_zeros
    c sp rn pn k thr co sx r state :
  Reaction_init c sp rn pn k thr co sx = inr r ->
  length (stoechio_coeffs r) = nb sp ->
  nb sp <= length state ->
  exists rate,
    outcome (Reaction_density_change_rate r state) = inr rate
    /\ length rate = nb sp
    /\ forall j, j < nb sp ->
         j ∉ reactives_indices r -> j ∉ products_indices r ->
         rate !! j = Some zero.
Proof.
  intros Hinit Hlen Hstate.
  apply Reaction_init_inr in Hinit as (_ & Hsp & _ & _ & _ & _ & _ & Hinv & _).
  subst sp.
  destruct (Reaction_density_change_rate_spec r state Hinv Hlen Hstate)
    as (xs & rate & _ & Hrun & Hlength & _ & _ & Hzero).
  exists rate. rewrite Hrun. split; [done |]. split; [done |].
  intros j Hj Hr Hp. rewrite (Hzero j Hr Hp). by apply np_zeros_lookup.
Qed.


(** C9: when the reactive names resolve and one of their indices is not
    below the species count, or the reactives pass and the product names
    resolve with one of their indices not below the species count, the
    constructor returns no reaction: it raises the [AssertionError] of the
    failed [assert] (with no reactive at all, the [ValueError] of [max] on
    an empty list comes first). *)
Theorem init_index_out_of_range_fails c sp rn pn k thr co sx rs :
  mapM (lookup_name sp) rn = inr rs ->
  (exists i, i ∈ map (get_index_by_instance sp) rs /\ nb sp <= i)
  \/ (exists ps i, mapM (lookup_name sp) pn = inr ps
                   /\ i ∈ map (get_index_by_instance sp) ps /\ nb sp <= i) ->
  exists e,
    Reaction_init c sp rn pn k thr co sx = inl e
    /\ (e = AssertionError "Reactive index is greater than number of species"
        \/ e = AssertionError "Product index is greater than number of species"
        \/ (rs = [] /\ e = ValueError)).
Proof.
  intros Hrs Hbad. unfold Reaction_init. rewrite Hrs.
  unfold mbind at 1, result_bind at 1.
  destruct (py_max (map (get_index_by_instance sp) rs)) as [e|mr] eqn:Hmr.
  { destruct rs; [| discriminate]. injection Hmr as <-. eauto 6. }
  unfold mbind at 1, result_bind at 1.
  pose proof (py_max_lt _ (nb sp) _ Hmr) as Hmax.
  destruct (mr <? nb sp) eqn:Hlt; [| simpl; eauto 6].
  apply Nat.ltb_lt, Hmax in Hlt.
  destruct Hbad as [(i & Hi & Hge) | (ps & i & Hps & Hi & Hge)].
  { eapply Forall_forall in Hlt; [| exact Hi]. simpl in Hlt. lia. }
  simpl py_assert. unfold mbind at 1, result_bind at 1, mret at 1, result_ret at 1.
  rewrite Hps. unfold mbind at 1, result_bind at 1.
  destruct (py_max (map (get_index_by_instance sp) ps)) as [e|mp] eqn:Hmp.
  { destruct ps; [| discriminate]. by apply elem_of_nil in Hi. }
  unfold mbind at 1, result_bind at 1.
  pose proof (py_max_lt _ (nb sp) _ Hmp) as Hmaxp.
  destruct (mp <? nb sp) eqn:Hltp; [| simpl; eauto 6].
  apply Nat.ltb_lt, Hmaxp in Hltp.
  eapply Forall_forall in Hltp; [| exact Hi]. simpl in Hltp. lia.
Qed.

(** C10: two reactions built from the same registry, names, rate-constant
    function and threshold, with different stoichiometric coefficients,
    give the same [electron_loss_power] on every state. *)
Theorem electron_loss_power_ignores_stoechio_coeffs
    c sp rn pn k thr co1 co2 sx r1 r2 state :
  Reaction_init c sp rn pn k thr co1 sx = inr r1 ->
  Reaction_init c sp rn pn k thr co2 sx = inr r2 ->
  Reaction_electron_loss_power r1 state = Reaction_electron_loss_power r2 state.
Proof.
  intros H1 H2.
  apply Reaction_init_inr in H1 as (_ & Hsp1 & Hk1 & Hthr1 & _ & Hrs1 & _ & Hinv1 & _).
  apply Reaction_init_inr in H2 as (_ & Hsp2 & Hk2 & Hthr2 & _ & Hrs2 & _ & Hinv2 & _).
  rewrite !Reaction_electron_loss_power_unfold.
  rewrite (inv_reactives _ Hinv1), (inv_reactives _ Hinv2).
  rewrite Hsp1, Hsp2, Hk1, Hk2, Hthr1, Hthr2.
  by replace (reactives r2) with (reactives r1) by congruence.
Qed.
End BaseClassLaws.

(** ** The elastic collision *)

Section ElasticClassLaws.
Context {F : Type} `{Frac F}.
Variables m_e k_B : F.
Implicit Types (sp : Species F) (r : Reaction F) (state : list F).

(** Running a step that does not call [rate_constant], and the step that
    does. *)
Lemma lift_bind_inr {A B} (m : result A) (x : A) (f : A -> Eval F B) :
  m = inr x -> (lift m ≫= f) = f x.
Proof. intros ->. unfold_monad. by destruct (f x). Qed.

Lemma outcome_call_bind {B} (k : list F -> F) arg (f : F -> Eval F B) :
  outcome (call k arg ≫= f) = outcome (f (k arg)).
Proof. unfold_monad. by destruct (f (k arg)). Qed.

(** A constructed elastic collision has the colliding species as its only
    reactive, indexed below the species count. *)
Lemma Elastic_init_inr sp colliding k thr r s :
  Elastic_init sp colliding k thr = inr r ->
  get_specie_by_name sp colliding = Some s ->
  cls r = ElasticCollisionWithElectron /\ species r = sp
  /\ rate_constant r = k
  /\ reactives r = [s]
  /\ reactives_indices r = [get_index_by_instance sp s]
  /\ get_index_by_instance sp s < nb sp.
Proof.
  intros Hinit Hs. unfold Elastic_init in Hinit.
  apply Reaction_init_inr in Hinit
    as (Hcls & Hsp & Hk & _ & _ & Hrs & _ & Hinv & _).
  simpl in Hrs. unfold lookup_name in Hrs. rewrite Hs in Hrs.
  unfold_monad. injection Hrs as Hrs.
  pose proof (inv_reactives _ Hinv) as Hidx.
  pose proof (inv_reactives_lt _ Hinv) as Hlt.
  rewrite Hidx, <- Hrs, Hsp in Hlt. rewrite <- Hrs, Hsp in Hidx.
  apply Forall_cons in Hlt as [Hlt _]. done.
Qed.

(** C6: the override of [density_change_rate] in
    [ElasticCollisionWithElectron] returns the zero vector of length [N]
    on every state, and does not call [rate_constant]. *)
Theorem elastic_density_change_rate_is_zero sp colliding k thr r state :
  Elastic_init sp colliding k thr = inr r ->
  density_change_rate r state = ([], inr (replicate (nb sp) zero)).
Proof.
  intros Hinit. unfold Elastic_init in Hinit.
  apply Reaction_init_inr in Hinit as (Hcls & Hsp & _).
  unfold density_change_rate. rewrite Hcls.
  unfold Elastic_density_change_rate, np_zeros. by rewrite Hsp.
Qed.

(** C7: for the colliding species [s] of non-zero mass at index [i] and a
    state that reaches the temperature slot [N + s.nb_atoms],
    [electron_loss_power] returns
    [3 * (m_e / s.mass) * k_B * (state[N] - state[N + s.nb_atoms])
       * state[0] * state[i] * rate_constant(state)],
    the products taken from left to right. *)
Theorem elastic_electron_loss_power_formula sp colliding k thr r s state :
  Elastic_init sp colliding k thr = inr r ->
  get_specie_by_name sp colliding = Some s ->
  is_zero (mass s) = false ->
  nb sp + nb_atoms s < length state ->
  exists t_e t_s n_e n_s,
    state !! nb sp = Some t_e
    /\ state !! (nb sp + nb_atoms s) = Some t_s
    /\ state !! 0 = Some n_e
    /\ state !! get_index_by_instance sp s = Some n_s
    /\ outcome (electron_loss_power m_e k_B r state)
       = inr (mul (mul (mul (mul (mul (mul (fromZ 3) (div m_e (mass s))) k_B)
                                 (sub t_e t_s)) n_e) n_s) (k state)).
Proof.
  intros Hinit Hs Hmass Hstate.
  destruct (Elastic_init_inr _ _ _ _ _ _ Hinit Hs)
    as (Hcls & Hsp & Hk & Hrs & Hidx & Hlt).
  destruct (getitem_lt state (nb sp)) as (t_e & Hte & Hgte); [lia |].
  destruct (getitem_lt state (nb sp + nb_atoms s)) as (t_s & Hts & Hgts); [lia |].
  destruct (getitem_lt state 0) as (n_e & Hne & Hgne); [lia |].
  destruct (getitem_lt state (get_index_by_instance sp s))
    as (n_s & Hns & Hgns); [lia |].
  exists t_e, t_s, n_e, n_s. repeat (split; [done |]).
  unfold electron_loss_power. rewrite Hcls.
  unfold Elastic_electron_loss_power, py_div.
  rewrite Hrs, Hidx, Hsp, Hk, outcome_call_bind.
  rewrite (lift_bind_inr _ s) by done.
  rewrite Hmass, (lift_bind_inr _ (div m_e (mass s))) by done.
  rewrite (lift_bind_inr _ t_e), (lift_bind_inr _ t_s) by done.
  rewrite (lift_bind_inr _ n_e) by done.
  rewrite (lift_bind_inr _ (get_index_by_instance sp s)) by done.
  by rewrite (lift_bind_inr _ n_s).
Qed.
End ElasticClassLaws.

(** ** The default coefficients of a constructed reaction *)

(** Without coefficients supplied (or with an empty list of them) the
    constructor stores a vector of length [N] that holds 1 at the reactive
    indices and 0 at every other index, a product index included. *)
Lemma Reaction_init_default_coeffs {F} `{Num F}
    c (sp : Species F) rn pn k thr co sx r :
  co = None \/ co = Some [] ->
  Reaction_init c sp rn pn k thr co sx = inr r ->
  length (stoechio_coeffs r) = nb sp
  /\ forall i, i < nb sp ->
       stoechio_coeffs r !! i
       = Some (if decide (i ∈ reactives_indices r) then one else zero).
Proof.
  intros Hco Hinit.
  apply Reaction_init_inr in Hinit as (_ & Hsp & _ & _ & _ & _ & _ & Hinv & Hcs).
  assert (default_stoechio_coeffs (nb sp) (reactives_indices r)
            (products_indices r) = inr (stoechio_coeffs r)) as Hdef
    by (by destruct Hco as [-> | ->]).
  destruct (default_stoechio_coeffs_spec (F:=F) (nb sp) (reactives_indices r)
              (products_indices r)) as (cs & Hrun & Hlen & Hlook).
  - apply (inv_reactives_ne _ Hinv).
  - rewrite <- Hsp. apply (inv_reactives_lt _ Hinv).
  - rewrite Hrun in Hdef. injection Hdef as <-. done.
Qed.

(** ** The self-test *)

(** C1: in the self-test, [reac.density_change_rate(state)] calls the rate
    constant on [[-181, -182]] and returns [[0, 0, -30, 0, -30, 0]]: the
    entries at 2 and 4 are -30 and the entry at 5 is 0, since the
    coefficient stored for the product [I5] is 0. *)
Theorem selftest_density_change_rate :
  (r ← Scenario.reac; mret (density_change_rate r Scenario.state))
  = inr ([[-181; -182]%float], inr [0; 0; -30; 0; -30; 0]%float).
Proof. vm_compute. reflexivity. Qed.

(** C2: in the self-test, built without coefficients, the constructor
    stores [[0, 0, 1, 0, 1, 0]]: the reactive indices 2 and 4 hold 1 and
    the product index 5 holds 0. *)
Theorem selftest_default_stoechio_coeffs :
  (r ← Scenario.reac; mret (stoechio_coeffs r))
  = inr [0; 0; 1; 0; 1; 0]%float.
Proof. vm_compute. reflexivity. Qed.

(** ** Instances of the theorems *)

Lemma selftest_built : Scenario.reac = inr Scenario.built.
Proof. vm_compute. reflexivity. Qed.

Lemma density_change_rate_products_branch_wins_witness :
  exists densities cj rate,
    getitems Scenario.state (reactives_indices Scenario.catalytic) = inr densities
    /\ stoechio_coeffs Scenario.catalytic !! 4 = Some cj
    /\ outcome (Reaction_density_change_rate Scenario.catalytic Scenario.state)
       = inr rate
    /\ rate !! 4
       = Some (mul (mul (Scenario.K_diss_I2 (drop 6 Scenario.state))
                        (np_prod densities)) cj).
Proof.
  apply (density_change_rate_products_branch_wins
           BaseReaction Scenario.species_list ["I2"; "I4"] ["I4"; "I5"]
           Scenario.K_diss_I2 10%float None None
           Scenario.catalytic Scenario.state 4).
  - vm_compute. reflexivity.
  - reflexivity.
  - simpl. lia.
  - simpl. apply list_elem_of_In. simpl. tauto.
  - simpl. apply list_elem_of_In. simpl. tauto.
Defined.

Lemma density_change_rate_length_and_zeros_witness :
  exists rate,
    outcome (Reaction_density_change_rate Scenario.built Scenario.state) = inr rate
    /\ length rate = 6
    /\ forall j, j < 6 ->
         j ∉ reactives_indices Scenario.built ->
         j ∉ products_indices Scenario.built ->
         rate !! j = Some zero.
Proof.
  apply (density_change_rate_length_and_zeros
           BaseReaction Scenario.species_list ["I2"; "I4"] ["I5"]
           Scenario.K_diss_I2 10%float None None
           Scenario.built Scenario.state).
  - vm_compute. reflexivity.
  - reflexivity.
  - simpl. lia.
Defined.

Lemma elastic_density_change_rate_is_zero_witness :
  density_change_rate ElasticScenario.built ElasticScenario.state
  = ([], inr (replicate 3 zero)).
Proof.
  apply (elastic_density_change_rate_is_zero
           ElasticScenario.species_list "I2" ElasticScenario.K_el 0%float).
  vm_compute. reflexivity.
Defined.

Lemma elastic_electron_loss_power_formula_witness :
  exists t_e t_s n_e n_s,
    ElasticScenario.state !! 3 = Some t_e
    /\ ElasticScenario.state !! (3 + 2) = Some t_s
    /\ ElasticScenario.state !! 0 = Some n_e
    /\ ElasticScenario.state !! 2 = Some n_s
    /\ outcome (electron_loss_power ElasticScenario.m_e ElasticScenario.k_B
                  ElasticScenario.built ElasticScenario.state)
       = inr (mul (mul (mul (mul (mul (mul (fromZ 3)
                 (div ElasticScenario.m_e (mass ElasticScenario.molecule)))
                 ElasticScenario.k_B) (sub t_e t_s)) n_e) n_s)
                 (ElasticScenario.K_el ElasticScenario.state)).
Proof.
  apply (elastic_electron_loss_power_formula
           ElasticScenario.m_e ElasticScenario.k_B
           ElasticScenario.species_list "I2" ElasticScenario.K_el 0%float
           ElasticScenario.built ElasticScenario.molecule
           ElasticScenario.state).
  - vm_compute. reflexivity.
  - reflexivity.
  - reflexivity.
  - simpl. lia.
Defined.



Lemma init_index_out_of_range_fails_witness :
  exists e,
    Reaction_init BaseReaction BrokenRegistry.species_list ["I2"; "I4"] ["I5"]
      BrokenRegistry.K 10%float None None = inl e
    /\ (e = AssertionError "Reactive index is greater than number of species"
        \/ e = AssertionError "Product index is greater than number of species"
        \/ ([ {| name := "I2"; mass := 1%float; nb_atoms := 0 |};
              {| name := "I4"; mass := 1%float; nb_atoms := 0 |} ] = []
            /\ e = ValueError)).
Proof.
  apply (init_index_out_of_range_fails
           BaseReaction BrokenRegistry.species_list ["I2"; "I4"] ["I5"]
           BrokenRegistry.K 10%float None None).
  - reflexivity.
  - left. exists 7. split; [| simpl; lia].
    simpl. apply list_elem_of_In. simpl. tauto.
Defined.

Lemma electron_loss_power_ignores_stoechio_coeffs_witness :
  Reaction_electron_loss_power Scenario.built Scenario.state
  = Reaction_electron_loss_power Scenario.built_explicit Scenario.state.
Proof.
  apply (electron_loss_power_ignores_stoechio_coeffs
           BaseReaction Scenario.species_list ["I2"; "I4"] ["I5"]
           Scenario.K_diss_I2 10%float
           None (Some [0; 0; 1; 0; 1; 2]%float) None).
  - vm_compute. reflexivity.
  - vm_compute. reflexivity.
Defined.

(** * Further properties *)

(** ** How the constructor fails and when it succeeds *)

Section ConstructorBehaviour.
Context {F : Type} `{Num F}.
Implicit Types (sp : Species F) (r : Reaction F).

(** [Reaction.__init__] statement by statement. *)
Lemma Reaction_init_steps c sp rn pn k thr co sx :
  Reaction_init c sp rn pn k thr co sx
  = match mapM (lookup_name sp) rn with
    | inl e => inl e
    | inr rs =>
      let ris := map (get_index_by_instance sp) rs in
      match py_max ris with
      | inl e => inl e
      | inr mr =>
        if mr <? nb sp then
          match mapM (lookup_name sp) pn with
          | inl e => inl e
          | inr ps =>
            let pis := map (get_index_by_instance sp) ps in
            match py_max pis with
            | inl e => inl e
            | inr mp =>
              if mp <? nb sp then
                match match co with
                      | Some (x :: l) => inr (x :: l)
                      | _ => default_stoechio_coeffs (nb sp) ris pis
                      end with
                | inl e => inl e
                | inr cs =>
                    inr {| cls := c; species := sp;
                           reactives := rs; reactives_indices := ris;
                           products := ps; products_indices := pis;
                           stoechio_coeffs := cs;
                           energy_threshold := thr;
                           rate_constant := k;
                           spectators := sx |}
                end
              else inl (AssertionError
                          "Product index is greater than number of species")
            end
          end
        else inl (AssertionError
                    "Reactive index is greater than number of species")
      end
    end.
Proof.
  unfold Reaction_init.
  destruct (mapM (lookup_name sp) rn) as [e|rs]; [done |].
  unfold mbind at 1, result_bind at 1.
  destruct (py_max (map (get_index_by_instance sp) rs)) as [e|mr]; [done |].
  unfold mbind at 1, result_bind at 1. simpl.
  destruct (mr <? nb sp); [| done]. simpl.
  unfold mbind at 1, result_bind at 1, mret at 1, result_ret at 1.
  destruct (mapM (lookup_name sp) pn) as [e|ps]; [done |].
  unfold mbind at 1, result_bind at 1.
  destruct (py_max (map (get_index_by_instance sp) ps)) as [e|mp]; [done |].
  unfold mbind at 1, result_bind at 1.
  destruct (mp <? nb sp); [| done]. simpl.
  unfold mbind at 1, result_bind at 1, mret at 1, result_ret at 1.
  by destruct co as [[|x l]|].
Qed.

(** Resolving a list of names: all of them known, or a first unknown one. *)
Lemma lookup_name_Some sp n s :
  get_specie_by_name sp n = Some s -> lookup_name sp n = inr s.
Proof. intros Hn. unfold lookup_name. by rewrite Hn. Qed.

Lemma lookup_name_None sp n :
  get_specie_by_name sp n = None -> lookup_name sp n = inl (LookupError n).
Proof. intros Hn. unfold lookup_name. by rewrite Hn. Qed.

Lemma mapM_lookup_name_known sp ns ss :
  Forall2 (fun n s => get_specie_by_name sp n = Some s) ns ss ->
  mapM (lookup_name sp) ns = inr ss.
Proof.
  induction 1 as [|n s ns ss Hn _ IH]; [done |].
  simpl. rewrite (lookup_name_Some _ _ _ Hn). unfold_monad. by rewrite IH.
Qed.

Lemma mapM_lookup_name_unknown sp known n rest :
  Forall (fun m => is_Some (get_specie_by_name sp m)) known ->
  get_specie_by_name sp n = None ->
  mapM (lookup_name sp) (known ++ n :: rest) = inl (LookupError n).
Proof.
  intros Hknown Hn. induction Hknown as [|m known [s Hm] _ IH]; simpl.
  - by rewrite (lookup_name_None _ _ Hn).
  - rewrite (lookup_name_Some _ _ _ Hm). unfold_monad. by rewrite IH.
Qed.

Lemma py_max_checked (l : list nat) (n : nat) :
  l <> [] -> Forall (fun i => i < n) l ->
  exists m, py_max l = inr m /\ (m <? n) = true.
Proof.
  intros Hne Hlt. destruct l as [|x xs]; [done |].
  exists (foldl Nat.max x xs). split; [done |].
  apply Nat.ltb_lt. by apply (py_max_lt (x :: xs) n).
Qed.

(** X1: a reactive name the registry does not know stops the constructor
    at the first such name, with the lookup error of that name, whatever
    the other arguments are. *)
Theorem init_unknown_reactive_name c sp known n rest pn k thr co sx :
  Forall (fun m => is_Some (get_specie_by_name sp m)) known ->
  get_specie_by_name sp n = None ->
  Reaction_init c sp (known ++ n :: rest) pn k thr co sx
  = inl (LookupError n).
Proof.
  intros Hknown Hn. rewrite Reaction_init_steps.
  by rewrite (mapM_lookup_name_unknown _ _ _ _ Hknown Hn).
Qed.

(** X2: when the reactives are accepted, a product name the registry does
    not know stops the constructor with the lookup error of the first such
    name. *)
Theorem init_unknown_product_name c sp rn rs known n rest k thr co sx :
  Forall2 (fun m s => get_specie_by_name sp m = Some s) rn rs ->
  rs <> [] ->
  Forall (fun s => get_index_by_instance sp s < nb sp) rs ->
  Forall (fun m => is_Some (get_specie_by_name sp m)) known ->
  get_specie_by_name sp n = None ->
  Reaction_init c sp rn (known ++ n :: rest) k thr co sx
  = inl (LookupError n).
Proof.
  intros Hrs Hne Hlt Hknown Hn. rewrite Reaction_init_steps.
  rewrite (mapM_lookup_name_known _ _ _ Hrs). simpl.
  destruct (py_max_checked (map (get_index_by_instance sp) rs) (nb sp))
    as (mr & -> & ->).
  { by destruct rs. }
  { by apply Forall_map. }
  by rewrite (mapM_lookup_name_unknown _ _ _ _ Hknown Hn).
Qed.

(** X3: a reaction needs a reactive and a product: with no reactive name
    the constructor raises the [ValueError] of [max] on an empty list,
    whatever the products are, and with accepted reactives and no product
    name it raises it too. *)
Theorem init_empty_lists c sp rn rs pn k thr co sx :
  Forall2 (fun m s => get_specie_by_name sp m = Some s) rn rs ->
  rs <> [] ->
  Forall (fun s => get_index_by_instance sp s < nb sp) rs ->
  Reaction_init c sp [] pn k thr co sx = inl ValueError
  /\ Reaction_init c sp rn [] k thr co sx = inl ValueError.
Proof.
  intros Hrs Hne Hlt.
  split; [by rewrite Reaction_init_steps |].
  rewrite Reaction_init_steps.
  rewrite (mapM_lookup_name_known _ _ _ Hrs). simpl.
  destruct (py_max_checked (map (get_index_by_instance sp) rs) (nb sp))
    as (mr & -> & ->); [by destruct rs | by apply Forall_map | done].
Qed.

(** The constructor run to its end. *)
Lemma Reaction_init_inr_intro c sp rn rs pn ps k thr co sx :
  Forall2 (fun m s => get_specie_by_name sp m = Some s) rn rs ->
  Forall2 (fun m s => get_specie_by_name sp m = Some s) pn ps ->
  rs <> [] -> ps <> [] ->
  Forall (fun s => get_index_by_instance sp s < nb sp) rs ->
  Forall (fun s => get_index_by_instance sp s < nb sp) ps ->
  exists r,
    Reaction_init c sp rn pn k thr co sx = inr r
    /\ cls r = c /\ species r = sp
    /\ reactives r = rs /\ products r = ps
    /\ reactives_indices r = map (get_index_by_instance sp) rs
    /\ products_indices r = map (get_index_by_instance sp) ps
    /\ energy_threshold r = thr /\ rate_constant r = k /\ spectators r = sx
    /\ match co with
       | Some (x :: l) => stoechio_coeffs r = x :: l
       | _ => length (stoechio_coeffs r) = nb sp
       end.
Proof.
  intros Hrs Hps Hrne Hpne Hrlt Hplt. rewrite Reaction_init_steps.
  rewrite (mapM_lookup_name_known _ _ _ Hrs),
    (mapM_lookup_name_known _ _ _ Hps). simpl.
  assert (map (get_index_by_instance sp) rs <> []) as Hrne' by (by destruct rs).
  assert (map (get_index_by_instance sp) ps <> []) as Hpne' by (by destruct ps).
  apply (Forall_map (get_index_by_instance sp) (fun i => i < nb sp)) in Hrlt, Hplt.
  destruct (py_max_checked _ _ Hrne' Hrlt) as (mr & -> & ->).
  destruct (py_max_checked _ _ Hpne' Hplt) as (mp & -> & ->).
  destruct (default_stoechio_coeffs_spec (F:=F) (nb sp)
              (map (get_index_by_instance sp) rs)
              (map (get_index_by_instance sp) ps) Hrne' Hrlt)
    as (cs & Hcs & Hlen & _).
  destruct co as [[|x l]|]; [rewrite Hcs | | rewrite Hcs];
    eexists; (split; [done |]); simpl; by repeat split.
Qed.

Lemma mapM_lookup_name_inr sp ns ss :
  mapM (lookup_name sp) ns = inr ss ->
  Forall2 (fun n s => get_specie_by_name sp n = Some s) ns ss.
Proof.
  revert ss. induction ns as [|n ns IH]; intros ss; simpl.
  - intros [= <-]. constructor.
  - destruct (get_specie_by_name sp n) as [s|] eqn:Hn.
    + rewrite (lookup_name_Some _ _ _ Hn). unfold_monad.
      destruct (mapM (lookup_name sp) ns) as [e|ss'] eqn:Hss; [done |].
      intros [= <-]. constructor; [done | by apply IH].
    + by rewrite (lookup_name_None _ _ Hn).
Qed.

(** X4: the constructor succeeds exactly when every reactive and product
    name is known to the registry, there is at least one of each, and
    every resolved index is below the species count. Neither the default
    fill nor a coefficient list of any length makes it fail. *)
Theorem init_succeeds_iff c sp rn pn k thr co sx :
  (exists r, Reaction_init c sp rn pn k thr co sx = inr r)
  <-> exists rs ps,
        Forall2 (fun m s => get_specie_by_name sp m = Some s) rn rs
        /\ Forall2 (fun m s => get_specie_by_name sp m = Some s) pn ps
        /\ rs <> [] /\ ps <> []
        /\ Forall (fun s => get_index_by_instance sp s < nb sp) rs
        /\ Forall (fun s => get_index_by_instance sp s < nb sp) ps.
Proof.
  split.
  - intros (r & Hinit).
    apply Reaction_init_inr in Hinit
      as (_ & Hsp & _ & _ & _ & Hrs & Hps & Hinv & _).
    destruct Hinv as [Hris Hpis Hrlt Hplt Hrne Hpne].
    rewrite Hris in Hrlt, Hrne. rewrite Hpis in Hplt, Hpne.
    rewrite Hsp in Hrlt, Hplt, Hrne, Hpne.
    apply Forall_map in Hrlt, Hplt.
    exists (reactives r), (products r).
    split; [by apply mapM_lookup_name_inr |].
    split; [by apply mapM_lookup_name_inr |].
    split; [by intros Heq; rewrite Heq in Hrne |].
    split; [by intros Heq; rewrite Heq in Hpne |]. done.
  - intros (rs & ps & Hrs & Hps & Hrne & Hpne & Hrlt & Hplt).
    destruct (Reaction_init_inr_intro c sp rn rs pn ps k thr co sx)
      as (r & Hinit & _); [done.. |].
    by exists r.
Qed.
End ConstructorBehaviour.

(** ** What the evaluation methods of the base class return *)

Section EvaluationBehaviour.
Context {F : Type} `{Num F}.
Implicit Types (sp : Species F) (r : Reaction F) (state : list F).

Lemma getitem_ge {A} (a : list A) i : length a <= i -> getitem a i = inl IndexError.
Proof. intros Hi. unfold getitem. by rewrite lookup_ge_None_2. Qed.

(** Reading at a list of indices fails as soon as one is out of range. *)
Lemma getitems_short {A} (a : list A) idxs :
  Exists (fun i => length a <= i) idxs -> getitems a idxs = inl IndexError.
Proof.
  unfold getitems. induction 1 as [i idxs Hi | i idxs _ IH]; simpl.
  - by rewrite (getitem_ge a i Hi).
  - destruct (decide (i < length a)) as [Hlt|Hge].
    + destruct (getitem_lt a i Hlt) as (x & _ & ->). unfold_monad.
      by rewrite IH.
    + rewrite getitem_ge by lia. done.
Qed.

(** The assignment loop fails as soon as a species has no coefficient. *)
Lemma assign_rates_short_coeffs sp coeffs v sps (rate : list F) :
  Forall (fun s => get_index_by_instance sp s < length rate) sps ->
  Exists (fun s => length coeffs <= get_index_by_instance sp s) sps ->
  assign_rates sp coeffs v sps rate = inl IndexError.
Proof.
  intros Hall Hex. revert rate Hall.
  induction Hex as [s rest Hs | s rest _ IH]; intros rate Hall; simpl.
  - by rewrite (getitem_ge coeffs _ Hs).
  - apply Forall_cons in Hall as [Hs Hall].
    destruct (decide (get_index_by_instance sp s < length coeffs)) as [Hlt|Hge].
    + destruct (getitem_lt coeffs _ Hlt) as (x & _ & ->). unfold_monad.
      rewrite (setitem_lt rate _ _ Hs). apply IH.
      eapply Forall_impl; [exact Hall |]. intros s' Hs'.
      by rewrite length_insert.
    + rewrite getitem_ge by lia. done.
Qed.

(** X5: without coefficients passed (or with an empty list of them) the
    constructor stores [N] coefficients: 1 at every reactive index and 0
    at every other index, so a product that is not a reactive has the
    coefficient 0. *)
Theorem default_coefficients_follow_reactives c sp rn pn k thr co sx r :
  co = None \/ co = Some [] ->
  Reaction_init c sp rn pn k thr co sx = inr r ->
  length (stoechio_coeffs r) = nb sp
  /\ (forall i, i ∈ reactives_indices r -> stoechio_coeffs r !! i = Some one)
  /\ (forall i, i < nb sp -> i ∉ reactives_indices r ->
        stoechio_coeffs r !! i = Some zero).
Proof.
  intros Hco Hinit.
  destruct (Reaction_init_default_coeffs _ _ _ _ _ _ _ _ _ Hco Hinit)
    as (Hlen & Hlook).
  apply Reaction_init_inr in Hinit as (_ & Hsp & _ & _ & _ & _ & _ & Hinv & _).
  split; [done |]. split.
  - intros i Hi. rewrite Hlook, decide_True; [done.. |].
    pose proof (inv_reactives_lt _ Hinv) as Hlt. rewrite Hsp in Hlt.
    by eapply Forall_forall in Hlt.
  - intros i Hi Hnot. by rewrite Hlook, decide_False.
Qed.

(** X6: the entry of a reactive that is not a product is
    [(-product) * stoechio_coeffs[j]], where [product] is the rate constant
    at [state[N:]] times the product of the reactive densities; a reactive
    named several times is written several times with this same value. *)
Theorem density_change_rate_reactive_entry
    c sp rn pn k thr co sx r state j :
  Reaction_init c sp rn pn k thr co sx = inr r ->
  length (stoechio_coeffs r) = nb sp ->
  nb sp <= length state ->
  j ∈ reactives_indices r ->
  j ∉ products_indices r ->
  exists densities cj rate,
    getitems state (reactives_indices r) = inr densities
    /\ stoechio_coeffs r !! j = Some cj
    /\ outcome (Reaction_density_change_rate r state) = inr rate
    /\ rate !! j
       = Some (mul (neg (mul (k (drop (nb sp) state)) (np_prod densities))) cj).
Proof.
  intros Hinit Hlen Hstate Hr Hp.
  apply Reaction_init_inr in Hinit as (_ & Hsp & Hk & _ & _ & _ & _ & Hinv & _).
  rewrite <- Hsp in Hlen, Hstate.
  destruct (Reaction_density_change_rate_spec r state Hinv Hlen Hstate)
    as (xs & rate & Hxs & Hrun & _ & _ & Hreac & _).
  destruct (Hreac j Hr Hp) as (cj & Hcj & Hj).
  exists xs, cj, rate. rewrite Hrun. subst sp k. done.
Qed.

(** X7: on any reaction, a state too short to hold the density of one of
    the reactives makes both methods raise [IndexError], after the rate
    constant has been called. *)
Theorem short_state_raises_IndexError r state i :
  i ∈ reactives_indices r ->
  length state <= i ->
  Reaction_density_change_rate r state
  = ([drop (nb (species r)) state], inl IndexError)
  /\ Reaction_electron_loss_power r state = ([state], inl IndexError).
Proof.
  intros Hi Hshort.
  assert (getitems state (reactives_indices r) = inl IndexError) as Hget.
  { apply getitems_short, Exists_exists. by exists i. }
  split.
  - unfold Reaction_density_change_rate. rewrite Hget. by unfold_monad.
  - rewrite Reaction_electron_loss_power_unfold. by rewrite Hget.
Qed.

(** X8: the constructor does not check the length of the coefficients it
    is given; when a reactive or a product has an index with no
    coefficient, [density_change_rate] raises [IndexError]. *)
Theorem density_change_rate_short_coeffs
    c sp rn pn k thr co sx r state i :
  Reaction_init c sp rn pn k thr co sx = inr r ->
  nb sp <= length state ->
  i ∈ reactives_indices r \/ i ∈ products_indices r ->
  length (stoechio_coeffs r) <= i ->
  outcome (Reaction_density_change_rate r state) = inl IndexError.
Proof.
  intros Hinit Hstate Hi Hshort.
  apply Reaction_init_inr in Hinit as (_ & Hsp & _ & _ & _ & _ & _ & Hinv & _).
  destruct Hinv as [Hris Hpis Hrlt Hplt _ _]. subst sp.
  destruct (getitems_lt state (reactives_indices r)) as (xs & Hxs & _).
  { eapply Forall_impl; [exact Hrlt |]. intros j Hj. simpl in Hj. lia. }
  rewrite Hris in Hrlt. rewrite Hpis in Hplt.
  apply Forall_map in Hrlt, Hplt.
  unfold Reaction_density_change_rate. rewrite Hxs. unfold_monad. simpl.
  set (product := mul _ (np_prod xs)).
  set (short := fun s : Specie F =>
                  length (stoechio_coeffs r) <= get_index_by_instance (species r) s).
  destruct (decide (Exists short (reactives r))) as [Hex|Hnex].
  { rewrite assign_rates_short_coeffs; [done | | done].
    eapply Forall_impl; [exact Hrlt |]. intros s Hs.
    by rewrite np_zeros_length. }
  apply not_Exists_Forall in Hnex; [| intros s; unfold short; apply _].
  destruct (assign_rates_spec (species r) (stoechio_coeffs r) (neg product)
              (reactives r) (np_zeros (nb (species r))))
    as (rate1 & -> & Hlen1 & _).
  { apply Forall_forall. intros s Hs. rewrite np_zeros_length. split.
    - by eapply Forall_forall in Hrlt.
    - eapply Forall_forall in Hnex; [| exact Hs]. unfold short in Hnex.
      simpl in Hnex. lia. }
  rewrite assign_rates_short_coeffs; [done | |].
  - eapply Forall_impl; [exact Hplt |]. intros s Hs.
    by rewrite Hlen1, np_zeros_length.
  - destruct Hi as [Hi|Hi].
    + exfalso. rewrite Hris in Hi. apply list_elem_of_fmap in Hi as (s & -> & Hs).
      eapply Forall_forall in Hnex; [| exact Hs]. by apply Hnex.
    + rewrite Hpis in Hi. apply list_elem_of_fmap in Hi as (s & -> & Hs).
      apply Exists_exists. by exists s.
Qed.

(** X9: on a constructed reaction and a state that holds the [N]
    densities, [electron_loss_power] returns
    [energy_threshold * rate_constant(state) * prod], [prod] being the
    product of the densities at the reactive indices, one factor per
    reactive name; the coefficients need not be well formed. *)
Theorem electron_loss_power_value c sp rn pn k thr co sx r state :
  Reaction_init c sp rn pn k thr co sx = inr r ->
  nb sp <= length state ->
  exists densities,
    Forall2 (fun i x => state !! i = Some x) (reactives_indices r) densities
    /\ Reaction_electron_loss_power r state
       = ([state], inr (mul (mul thr (k state)) (np_prod densities))).
Proof.
  intros Hinit Hstate.
  apply Reaction_init_inr in Hinit as (_ & Hsp & Hk & Hthr & _ & _ & _ & Hinv & _).
  rewrite <- Hsp in Hstate.
  destruct (getitems_lt state (reactives_indices r)) as (xs & Hxs & Hall).
  { eapply Forall_impl; [exact (inv_reactives_lt _ Hinv) |].
    intros j Hj. simpl in Hj. lia. }
  exists xs. split; [done |].
  rewrite Reaction_electron_loss_power_unfold, Hxs, Hk, Hthr. done.
Qed.
End EvaluationBehaviour.

(** ** What the evaluation methods do not read *)

Section UnusedArguments.
Context {F : Type} `{Num F}.
Implicit Types (sp : Species F) (r : Reaction F) (state : list F).

(** Two runs of the constructor on the same registry and names resolve
    the same species and indices. *)
Lemma Reaction_init_same_reactives
    c sp rn pn1 pn2 k1 k2 thr1 thr2 co1 co2 sx1 sx2 r1 r2 :
  Reaction_init c sp rn pn1 k1 thr1 co1 sx1 = inr r1 ->
  Reaction_init c sp rn pn2 k2 thr2 co2 sx2 = inr r2 ->
  species r1 = species r2 /\ reactives r1 = reactives r2
  /\ reactives_indices r1 = reactives_indices r2.
Proof.
  intros H1 H2.
  apply Reaction_init_inr in H1 as (_ & Hsp1 & _ & _ & _ & Hrs1 & _ & Hinv1 & _).
  apply Reaction_init_inr in H2 as (_ & Hsp2 & _ & _ & _ & Hrs2 & _ & Hinv2 & _).
  assert (reactives r1 = reactives r2) as Hrs by congruence.
  split; [congruence |]. split; [done |].
  rewrite (inv_reactives _ Hinv1), (inv_reactives _ Hinv2). congruence.
Qed.

(** X10: [density_change_rate] does not read the energy threshold: two
    reactions built alike but for the threshold give the same call log and
    the same outcome on every state. *)
Theorem density_change_rate_ignores_energy_threshold
    c sp rn pn k thr1 thr2 co sx r1 r2 state :
  Reaction_init c sp rn pn k thr1 co sx = inr r1 ->
  Reaction_init c sp rn pn k thr2 co sx = inr r2 ->
  Reaction_density_change_rate r1 state = Reaction_density_change_rate r2 state.
Proof.
  intros H1 H2.
  rewrite Reaction_init_steps in H1, H2.
  destruct (mapM (lookup_name sp) rn) as [e|rs]; [done |]. simpl in H1, H2.
  destruct (py_max (map (get_index_by_instance sp) rs)) as [e|mr]; [done |].
  destruct (mr <? nb sp); [| done].
  destruct (mapM (lookup_name sp) pn) as [e|ps]; [done |].
  destruct (py_max (map (get_index_by_instance sp) ps)) as [e|mp]; [done |].
  destruct (mp <? nb sp); [| done].
  match type of H1 with
  | match ?m with _ => _ end = _ => destruct m as [e|cs]; [done |]
  end.
  by injection H1 as <-; injection H2 as <-.
Qed.

(** X11: [electron_loss_power] reads neither the products nor the
    coefficients: two reactions built with the same reactives, rate
    constant and threshold give the same call log and the same outcome on
    every state, whatever their products and coefficients. *)
Theorem electron_loss_power_ignores_products
    c sp rn pn1 pn2 k thr co1 co2 sx r1 r2 state :
  Reaction_init c sp rn pn1 k thr co1 sx = inr r1 ->
  Reaction_init c sp rn pn2 k thr co2 sx = inr r2 ->
  Reaction_electron_loss_power r1 state = Reaction_electron_loss_power r2 state.
Proof.
  intros H1 H2.
  destruct (Reaction_init_same_reactives _ _ _ _ _ _ _ _ _ _ _ _ _ _ _ H1 H2)
    as (_ & _ & Hidx).
  apply Reaction_init_inr in H1 as (_ & _ & Hk1 & Hthr1 & _).
  apply Reaction_init_inr in H2 as (_ & _ & Hk2 & Hthr2 & _).
  rewrite !Reaction_electron_loss_power_unfold.
  by rewrite Hidx, Hk1, Hk2, Hthr1, Hthr2.
Qed.
End UnusedArguments.

(** ** The elastic collision: construction, failures, unused arguments *)

Section ElasticBehaviour.
Context {F : Type} `{Frac F}.
Variables m_e k_B : F.
Implicit Types (sp : Species F) (r : Reaction F) (state : list F).

Lemma call_bind {B} (k : list F -> F) arg (f : F -> Eval F B) :
  (call k arg ≫= f) = (arg :: calls (f (k arg)), outcome (f (k arg))).
Proof. unfold_monad. by destruct (f (k arg)). Qed.

Lemma lift_bind_inl {A B} (e : exn) (f : A -> Eval F B) :
  (lift (inl e) ≫= f) = ([], inl e).
Proof. done. Qed.

Lemma calls_lift_bind {A B} (m : result A) (f : A -> Eval F B) :
  calls (lift m ≫= f) = match m with inl _ => [] | inr x => calls (f x) end.
Proof. destruct m as [e|x]; [done |]. by rewrite (lift_bind_inr _ x). Qed.

(** X13: [ElasticCollisionWithElectron.__init__] succeeds exactly when the
    colliding species is known to the registry and indexed below the
    species count; the object then has this species as its only reactive
    and only product, and coefficients that are 1 at its index and 0
    elsewhere. *)
Theorem Elastic_init_iff sp colliding k thr r :
  Elastic_init sp colliding k thr = inr r
  <-> exists s,
        get_specie_by_name sp colliding = Some s
        /\ get_index_by_instance sp s < nb sp
        /\ r = {| cls := ElasticCollisionWithElectron; species := sp;
                  reactives := [s];
                  reactives_indices := [get_index_by_instance sp s];
                  products := [s];
                  products_indices := [get_index_by_instance sp s];
                  stoechio_coeffs :=
                    <[get_index_by_instance sp s := one]> (np_zeros (nb sp));
                  energy_threshold := thr;
                  rate_constant := k;
                  spectators := None |}.
Proof.
  unfold Elastic_init. rewrite Reaction_init_steps. simpl.
  destruct (get_specie_by_name sp colliding) as [s|] eqn:Hs.
  - rewrite (lookup_name_Some _ _ _ Hs). unfold_monad. simpl.
    destruct (get_index_by_instance sp s <? nb sp) eqn:Hlt.
    + apply Nat.ltb_lt in Hlt.
      unfold default_stoechio_coeffs. simpl.
      rewrite setitem_lt by (by rewrite np_zeros_length). unfold_monad.
      rewrite setitem_lt by (by rewrite length_insert, np_zeros_length).
      rewrite list_insert_insert_eq.
      split.
      * intros [= <-]. by exists s.
      * intros (s' & [= <-] & _ & ->). done.
    + apply Nat.ltb_ge in Hlt. split; [done |].
      intros (s' & [= <-] & Hlt' & _). lia.
  - rewrite (lookup_name_None _ _ Hs). split; [done |].
    by intros (s' & [=] & _).
Qed.

(** X14: [ElasticCollisionWithElectron.electron_loss_power] calls
    [rate_constant] once, on the whole state, before anything that can
    fail: the call is in the log whether the method returns or raises. *)
Theorem elastic_electron_loss_power_calls r state :
  calls (Elastic_electron_loss_power m_e k_B r state) = [state].
Proof.
  unfold Elastic_electron_loss_power. rewrite call_bind. unfold calls at 1.
  cbn [fst]. f_equal.
  rewrite calls_lift_bind.
  destruct (getitem (reactives r) 0) as [e|s]; [done |].
  rewrite calls_lift_bind.
  destruct (py_div m_e (mass s)) as [e|mass_ratio]; [done |].
  rewrite calls_lift_bind. destruct (getitem state _) as [e|t_e]; [done |].
  rewrite calls_lift_bind. destruct (getitem state _) as [e|t_s]; [done |].
  rewrite calls_lift_bind. destruct (getitem state 0) as [e|n_e]; [done |].
  rewrite calls_lift_bind.
  destruct (getitem (reactives_indices r) 0) as [e|i]; [done |].
  rewrite calls_lift_bind. by destruct (getitem state i).
Qed.

(** The method run to its end, once the division has given [ratio]. *)
Lemma Elastic_electron_loss_power_run sp colliding k thr r s state ratio :
  Elastic_init sp colliding k thr = inr r ->
  get_specie_by_name sp colliding = Some s ->
  py_div m_e (mass s) = inr ratio ->
  nb sp + nb_atoms s < length state ->
  exists t_e t_s n_e n_s,
    state !! nb sp = Some t_e
    /\ state !! (nb sp + nb_atoms s) = Some t_s
    /\ state !! 0 = Some n_e
    /\ state !! get_index_by_instance sp s = Some n_s
    /\ outcome (electron_loss_power m_e k_B r state)
       = inr (mul (mul (mul (mul (mul (mul (fromZ 3) ratio) k_B)
                                 (sub t_e t_s)) n_e) n_s) (k state)).
Proof.
  intros Hinit Hs Hdiv Hstate.
  destruct (Elastic_init_inr _ _ _ _ _ _ Hinit Hs)
    as (Hcls & Hsp & Hk & Hrs & Hidx & Hlt).
  destruct (getitem_lt state (nb sp)) as (t_e & Hte & Hgte); [lia |].
  destruct (getitem_lt state (nb sp + nb_atoms s)) as (t_s & Hts & Hgts); [lia |].
  destruct (getitem_lt state 0) as (n_e & Hne & Hgne); [lia |].
  destruct (getitem_lt state (get_index_by_instance sp s))
    as (n_s & Hns & Hgns); [lia |].
  exists t_e, t_s, n_e, n_s. repeat (split; [done |]).
  unfold electron_loss_power. rewrite Hcls.
  unfold Elastic_electron_loss_power.
  rewrite Hrs, Hidx, Hsp, Hk, outcome_call_bind.
  rewrite (lift_bind_inr _ s) by done.
  rewrite (lift_bind_inr _ ratio) by done.
  rewrite (lift_bind_inr _ t_e), (lift_bind_inr _ t_s) by done.
  rewrite (lift_bind_inr _ n_e) by done.
  rewrite (lift_bind_inr _ (get_index_by_instance sp s)) by done.
  by rewrite (lift_bind_inr _ n_s).
Qed.

(** X15: an elastic collision with a species of mass zero behaves as the
    division [m_e / mass] does on the type the mass is stored in. With a
    Python float the method raises [ZeroDivisionError] on every state,
    after calling the rate constant. With a numpy float64 it raises
    nothing: on a state that reaches the temperature slot of the species
    it returns the usual product, taken with the infinity or nan that
    [m_e / mass] gives. *)
Theorem elastic_zero_mass sp colliding k thr r s state :
  Elastic_init sp colliding k thr = inr r ->
  get_specie_by_name sp colliding = Some s ->
  is_zero (mass s) = true ->
  if div_raises then
    electron_loss_power m_e k_B r state = ([state], inl ZeroDivisionError)
  else
    nb sp + nb_atoms s < length state ->
    exists t_e t_s n_e n_s,
      state !! nb sp = Some t_e
      /\ state !! (nb sp + nb_atoms s) = Some t_s
      /\ state !! 0 = Some n_e
      /\ state !! get_index_by_instance sp s = Some n_s
      /\ outcome (electron_loss_power m_e k_B r state)
         = inr (mul (mul (mul (mul (mul (mul (fromZ 3) (div m_e (mass s))) k_B)
                                   (sub t_e t_s)) n_e) n_s) (k state)).
Proof.
  intros Hinit Hs Hmass.
  destruct div_raises eqn:Hraises.
  - destruct (Elastic_init_inr _ _ _ _ _ _ Hinit Hs)
      as (Hcls & Hsp & Hk & Hrs & Hidx & Hlt).
    unfold electron_loss_power. rewrite Hcls.
    unfold Elastic_electron_loss_power, py_div.
    rewrite call_bind, Hrs, (lift_bind_inr _ s) by done.
    by rewrite Hmass, Hraises, lift_bind_inl.
  - intros Hstate.
    apply (Elastic_electron_loss_power_run sp colliding k thr); [done.. | | done].
    unfold py_div. by rewrite Hmass, Hraises.
Qed.

(** X16: an elastic collision with a species of non-zero mass raises
    [IndexError] on every state that does not reach the temperature slot
    [N + nb_atoms] of the species, after calling the rate constant. *)
Theorem elastic_short_state sp colliding k thr r s state :
  Elastic_init sp colliding k thr = inr r ->
  get_specie_by_name sp colliding = Some s ->
  is_zero (mass s) = false ->
  length state <= nb sp + nb_atoms s ->
  electron_loss_power m_e k_B r state = ([state], inl IndexError).
Proof.
  intros Hinit Hs Hmass Hshort.
  destruct (Elastic_init_inr _ _ _ _ _ _ Hinit Hs)
    as (Hcls & Hsp & Hk & Hrs & Hidx & Hlt).
  unfold electron_loss_power. rewrite Hcls.
  unfold Elastic_electron_loss_power, py_div.
  rewrite call_bind, Hrs, (lift_bind_inr _ s) by done.
  rewrite Hmass, (lift_bind_inr _ (div m_e (mass s))) by done.
  rewrite Hsp.
  destruct (decide (nb sp < length state)) as [Hte|Hte].
  - destruct (getitem_lt state (nb sp) Hte) as (t_e & _ & Hgte).
    rewrite (lift_bind_inr _ t_e) by done.
    by rewrite (getitem_ge state (nb sp + nb_atoms s)), lift_bind_inl.
  - rewrite (getitem_ge state (nb sp)) by lia. by rewrite lift_bind_inl.
Qed.

(** X17: neither override of the elastic collision reads the energy
    threshold: two elastic collisions built alike but for the threshold
    behave the same on every state. *)
Theorem elastic_ignores_energy_threshold
    sp colliding k thr1 thr2 r1 r2 state :
  Elastic_init sp colliding k thr1 = inr r1 ->
  Elastic_init sp colliding k thr2 = inr r2 ->
  density_change_rate r1 state = density_change_rate r2 state
  /\ electron_loss_power m_e k_B r1 state = electron_loss_power m_e k_B r2 state.
Proof.
  intros H1 H2. unfold Elastic_init in H1, H2.
  destruct (Reaction_init_same_reactives _ _ _ _ _ _ _ _ _ _ _ _ _ _ _ H1 H2)
    as (Hsp & Hrs & Hidx).
  apply Reaction_init_inr in H1 as (Hcls1 & _ & Hk1 & _).
  apply Reaction_init_inr in H2 as (Hcls2 & _ & Hk2 & _).
  unfold density_change_rate, electron_loss_power. rewrite Hcls1, Hcls2.
  unfold Elastic_density_change_rate, Elastic_electron_loss_power.
  by rewrite Hsp, Hrs, Hidx, Hk1, Hk2.
Qed.
End ElasticBehaviour.

(** ** String rendering *)

Section RenderingBehaviour.
Context {F : Type} `{Num F} `{Show F}.
Implicit Types (sp : Species F) (r : Reaction F) (coeffs : list F).

(** With a coefficient for every species of the list, [format_terms]
    yields one term per species, in order. *)
Lemma format_terms_spec sp coeffs (cf : nat -> F) (sps : list (Specie F)) :
  Forall (fun s => coeffs !! get_index_by_instance sp s
                   = Some (cf (get_index_by_instance sp s))) sps ->
  format_terms coeffs (zip (map (get_index_by_instance sp) sps) sps)
  = inr (map (fun s => term (cf (get_index_by_instance sp s)) s) sps).
Proof.
  induction 1 as [|s sps Hs _ IH]; [done |].
  simpl. rewrite (getitem_Some _ _ _ Hs). unfold_monad. by rewrite IH.
Qed.

(** It fails as soon as a species has no coefficient. *)
Lemma format_terms_short sp coeffs (sps : list (Specie F)) :
  Exists (fun s => length coeffs <= get_index_by_instance sp s) sps ->
  format_terms coeffs (zip (map (get_index_by_instance sp) sps) sps)
  = inl IndexError.
Proof.
  induction 1 as [s sps Hs | s sps _ IH]; simpl.
  - by rewrite (getitem_ge coeffs _ Hs).
  - destruct (decide (get_index_by_instance sp s < length coeffs)) as [Hlt|Hge].
    + destruct (getitem_lt coeffs _ Hlt) as (x & _ & ->). unfold_monad.
      by rewrite IH.
    + rewrite getitem_ge by lia. done.
Qed.

(** It raises nothing but [IndexError]. *)
Lemma format_terms_inl coeffs (pairs : list (nat * Specie F)) e :
  format_terms coeffs pairs = inl e -> e = IndexError.
Proof.
  induction pairs as [|[i s] pairs IH]; simpl; [done |].
  unfold getitem. destruct (coeffs !! i) as [x|]; unfold_monad; [| congruence].
  destruct (format_terms coeffs pairs) as [e'|ts]; [| done].
  intros [= <-]. by apply IH.
Qed.

(** X18: on a constructed reaction with one coefficient per species,
    [__str__] raises nothing and returns the reactive terms joined by
    [" + "], then [" -> "], the product terms joined by [" + "], ten
    spaces and [K_r = ] followed by the name of the rate constant; there
    is one term per reactive and per product name, in the order given. *)
Theorem str_of_well_formed_reaction c sp rn pn k thr co sx r k_name :
  Reaction_init c sp rn pn k thr co sx = inr r ->
  length (stoechio_coeffs r) = nb sp ->
  Reaction_str r k_name
  = inr (String.concat " + "
           (map (fun s => term (default zero (stoechio_coeffs r
                                 !! get_index_by_instance sp s)) s)
                (reactives r))
         +:+ " -> "
         +:+ String.concat " + "
               (map (fun s => term (default zero (stoechio_coeffs r
                                     !! get_index_by_instance sp s)) s)
                    (products r))
         +:+ "          K_r = " +:+ k_name).
Proof.
  intros Hinit Hlen.
  apply Reaction_init_inr in Hinit as (_ & Hsp & _ & _ & _ & _ & _ & Hinv & _).
  destruct Hinv as [Hris Hpis Hrlt Hplt _ _]. subst sp.
  rewrite Hris in Hrlt. rewrite Hpis in Hplt. apply Forall_map in Hrlt, Hplt.
  assert (forall sps : list (Specie F),
            Forall (fun s => get_index_by_instance (species r) s
                             < nb (species r)) sps ->
            Forall (fun s => stoechio_coeffs r !! get_index_by_instance (species r) s
                     = Some (default zero (stoechio_coeffs r
                               !! get_index_by_instance (species r) s))) sps)
    as Hcf.
  { intros sps Hall. eapply Forall_impl; [exact Hall |]. intros s Hs.
    simpl in Hs. rewrite <- Hlen in Hs.
    by destruct (lookup_lt_is_Some_2 _ _ Hs) as [x ->]. }
  unfold Reaction_str, format_species. rewrite Hris, Hpis.
  rewrite (format_terms_spec (species r) (stoechio_coeffs r)
             (fun i => default zero (stoechio_coeffs r !! i)) _ (Hcf _ Hrlt)).
  rewrite (format_terms_spec (species r) (stoechio_coeffs r)
             (fun i => default zero (stoechio_coeffs r !! i)) _ (Hcf _ Hplt)).
  done.
Qed.

(** X19: a reaction built without coefficients renders every reactive
    with the coefficient text of 1, and every product with the text of 1
    when it is also a reactive and with the text of 0 when it is not. *)
Theorem str_of_default_reaction c sp rn pn k thr co sx r k_name :
  co = None \/ co = Some [] ->
  Reaction_init c sp rn pn k thr co sx = inr r ->
  Reaction_str r k_name
  = inr (String.concat " + " (map (term one) (reactives r))
         +:+ " -> "
         +:+ String.concat " + "
               (map (fun p =>
                       term (if decide (get_index_by_instance sp p
                                        ∈ reactives_indices r)
                             then one else zero) p)
                    (products r))
         +:+ "          K_r = " +:+ k_name).
Proof.
  intros Hco Hinit.
  destruct (Reaction_init_default_coeffs _ _ _ _ _ _ _ _ _ Hco Hinit)
    as (Hlen & Hlook).
  apply Reaction_init_inr in Hinit as (_ & Hsp & _ & _ & _ & _ & _ & Hinv & _).
  destruct Hinv as [Hris Hpis Hrlt Hplt _ _]. subst sp.
  pose proof Hrlt as Hrlt'.
  rewrite Hris in Hrlt'. rewrite Hpis in Hplt. apply Forall_map in Hrlt', Hplt.
  unfold Reaction_str, format_species.
  rewrite Hris at 1. rewrite Hpis.
  rewrite (format_terms_spec (species r) (stoechio_coeffs r)
             (fun _ => one) (reactives r)).
  2:{ apply Forall_forall. intros s Hs.
      eapply Forall_forall in Hrlt'; [| exact Hs]. simpl in Hrlt'.
      rewrite (Hlook _ Hrlt'), decide_True; [done |].
      rewrite Hris. by apply list_elem_of_fmap_2. }
  rewrite (format_terms_spec (species r) (stoechio_coeffs r)
             (fun i => if decide (i ∈ reactives_indices r) then one else zero)
             (products r)).
  2:{ eapply Forall_impl; [exact Hplt |]. intros s Hs. by apply Hlook. }
  done.
Qed.

(** X20: when a reactive or a product has an index with no coefficient,
    [__str__] raises [IndexError]. *)
Theorem str_short_coeffs c sp rn pn k thr co sx r k_name i :
  Reaction_init c sp rn pn k thr co sx = inr r ->
  i ∈ reactives_indices r \/ i ∈ products_indices r ->
  length (stoechio_coeffs r) <= i ->
  Reaction_str r k_name = inl IndexError.
Proof.
  intros Hinit Hi Hshort.
  apply Reaction_init_inr in Hinit as (_ & Hsp & _ & _ & _ & _ & _ & Hinv & _).
  destruct Hinv as [Hris Hpis _ _ _ _]. subst sp.
  set (short := fun s : Specie F =>
                  length (stoechio_coeffs r) <= get_index_by_instance (species r) s).
  assert (forall sps : list (Specie F),
            i ∈ map (get_index_by_instance (species r)) sps ->
            Exists short sps) as Hex.
  { intros sps Hin. apply list_elem_of_fmap in Hin as (s & -> & Hs).
    apply Exists_exists. by exists s. }
  unfold Reaction_str, format_species. rewrite Hris, Hpis.
  destruct (decide (Exists short (reactives r))) as [Hr|Hr].
  { by rewrite (format_terms_short _ _ _ Hr). }
  destruct Hi as [Hi|Hi].
  { rewrite Hris in Hi. by apply Hex in Hi. }
  rewrite Hpis in Hi. apply Hex in Hi.
  rewrite (format_terms_short _ _ _ Hi).
  destruct (format_terms _ (zip _ (reactives r))) as [e|ts] eqn:Hts; [| done].
  by rewrite (format_terms_inl _ _ _ Hts).
Qed.
End RenderingBehaviour.

(** The coefficient texts of float64: nothing for 1.0, the integer for a
    whole number, two decimals otherwise. *)
Example coeff_str_float64 :
  map (coeff_str (F:=float)) [1; 2; 1.5; 0; -3; 0.125; 2.675]%float
  = [""; "2"; "1.50"; "0"; "-3"; "0.12"; "2.67"].
Proof. vm_compute. reflexivity. Qed.

(** [strip] removes the white space of Python at both ends, the no-break
    space U+00A0 and the ideographic space U+3000 included, and stops at
    the dagger U+2020 and at the zero-width space U+200B, which are not
    white space. *)
Example strip_unicode :
  map strip [ utf8 [32; 88; 194; 160];
              utf8 [227; 128; 128; 73; 50; 9; 226; 128; 131];
              utf8 [88; 226; 128; 160; 32];
              utf8 [226; 128; 139; 88; 194; 133] ]
  = [ "X"; "I2"; utf8 [88; 226; 128; 160]; utf8 [226; 128; 139; 88] ].
Proof. vm_compute. reflexivity. Qed.

(** What the self-test prints for [reac]. *)
Example selftest_str :
  (r ← Scenario.reac; Reaction_str r "K_diss_I2")
  = inr "I2 + I4 -> 0 I5          K_r = K_diss_I2".
Proof. vm_compute. reflexivity. Qed.

(** ** Instances of the further properties *)

Lemma init_unknown_reactive_name_witness :
  Reaction_init BaseReaction Scenario.species_list
    (["I2"] ++ "Xe" :: ["I4"]) ["I5"] Scenario.K_diss_I2 10%float None None
  = inl (LookupError "Xe").
Proof.
  apply (init_unknown_reactive_name BaseReaction Scenario.species_list
           ["I2"] "Xe" ["I4"] ["I5"] Scenario.K_diss_I2 10%float None None).
  - repeat constructor. by eexists.
  - reflexivity.
Defined.

Lemma init_unknown_product_name_witness :
  Reaction_init BaseReaction Scenario.species_list
    ["I2"; "I4"] (["I5"] ++ "Xe" :: []) Scenario.K_diss_I2 10%float None None
  = inl (LookupError "Xe").
Proof.
  apply (init_unknown_product_name BaseReaction Scenario.species_list
           ["I2"; "I4"] [Scenario.I "I2"; Scenario.I "I4"]
           ["I5"] "Xe" [] Scenario.K_diss_I2 10%float None None).
  - by repeat constructor.
  - discriminate.
  - repeat constructor; simpl; lia.
  - repeat constructor. by eexists.
  - reflexivity.
Defined.

Lemma init_empty_lists_witness :
  Reaction_init BaseReaction Scenario.species_list
    [] ["I5"] Scenario.K_diss_I2 10%float None None = inl ValueError
  /\ Reaction_init BaseReaction Scenario.species_list
       ["I2"; "I4"] [] Scenario.K_diss_I2 10%float None None = inl ValueError.
Proof.
  apply (init_empty_lists BaseReaction Scenario.species_list
           ["I2"; "I4"] [Scenario.I "I2"; Scenario.I "I4"]
           ["I5"] Scenario.K_diss_I2 10%float None None).
  - by repeat constructor.
  - discriminate.
  - repeat constructor; simpl; lia.
Defined.

Lemma default_coefficients_follow_reactives_witness :
  length (stoechio_coeffs Scenario.built) = 6
  /\ (forall i, i ∈ reactives_indices Scenario.built ->
        stoechio_coeffs Scenario.built !! i = Some one)
  /\ (forall i, i < 6 -> i ∉ reactives_indices Scenario.built ->
        stoechio_coeffs Scenario.built !! i = Some zero).
Proof.
  apply (default_coefficients_follow_reactives
           BaseReaction Scenario.species_list ["I2"; "I4"] ["I5"]
           Scenario.K_diss_I2 10%float None None).
  - by left.
  - vm_compute. reflexivity.
Defined.

Lemma density_change_rate_reactive_entry_witness :
  exists densities cj rate,
    getitems Scenario.state (reactives_indices Scenario.built) = inr densities
    /\ stoechio_coeffs Scenario.built !! 2 = Some cj
    /\ outcome (Reaction_density_change_rate Scenario.built Scenario.state)
       = inr rate
    /\ rate !! 2
       = Some (mul (neg (mul (Scenario.K_diss_I2 (drop 6 Scenario.state))
                             (np_prod densities))) cj).
Proof.
  apply (density_change_rate_reactive_entry
           BaseReaction Scenario.species_list ["I2"; "I4"] ["I5"]
           Scenario.K_diss_I2 10%float None None
           Scenario.built Scenario.state 2).
  - vm_compute. reflexivity.
  - reflexivity.
  - simpl. lia.
  - simpl. apply list_elem_of_In. simpl. tauto.
  - simpl. intros Hin. apply list_elem_of_In in Hin. simpl in Hin.
    destruct Hin as [Hin|[]]. discriminate Hin.
Defined.

Lemma short_state_raises_IndexError_witness :
  Reaction_density_change_rate Scenario.built [1; 2; 3]%float
  = ([drop 6 [1; 2; 3]%float], inl IndexError)
  /\ Reaction_electron_loss_power Scenario.built [1; 2; 3]%float
     = ([[1; 2; 3]%float], inl IndexError).
Proof.
  apply (short_state_raises_IndexError Scenario.built [1; 2; 3]%float 4).
  - simpl. apply list_elem_of_In. simpl. tauto.
  - simpl. lia.
Defined.

Lemma density_change_rate_short_coeffs_witness :
  outcome (Reaction_density_change_rate
             (Cases.selftest_like [Scenario.I "I5"] [5] [1; 1; 1]%float 10%float)
             Scenario.state)
  = inl IndexError.
Proof.
  apply (density_change_rate_short_coeffs
           BaseReaction Scenario.species_list ["I2"; "I4"] ["I5"]
           Scenario.K_diss_I2 10%float (Some [1; 1; 1]%float) None
           (Cases.selftest_like [Scenario.I "I5"] [5] [1; 1; 1]%float 10%float)
           Scenario.state 5).
  - vm_compute. reflexivity.
  - simpl. lia.
  - right. simpl. apply list_elem_of_In. simpl. tauto.
  - simpl. lia.
Defined.

Lemma electron_loss_power_value_witness :
  exists densities,
    Forall2 (fun i x => Scenario.state !! i = Some x)
      (reactives_indices Scenario.built) densities
    /\ Reaction_electron_loss_power Scenario.built Scenario.state
       = ([Scenario.state],
          inr (mul (mul 10%float (Scenario.K_diss_I2 Scenario.state))
                   (np_prod densities))).
Proof.
  apply (electron_loss_power_value
           BaseReaction Scenario.species_list ["I2"; "I4"] ["I5"]
           Scenario.K_diss_I2 10%float None None
           Scenario.built Scenario.state).
  - vm_compute. reflexivity.
  - simpl. lia.
Defined.

Lemma density_change_rate_ignores_energy_threshold_witness :
  Reaction_density_change_rate Scenario.built Scenario.state
  = Reaction_density_change_rate
      (Cases.selftest_like [Scenario.I "I5"] [5] [0; 0; 1; 0; 1; 0]%float 20%float)
      Scenario.state.
Proof.
  apply (density_change_rate_ignores_energy_threshold
           BaseReaction Scenario.species_list ["I2"; "I4"] ["I5"]
           Scenario.K_diss_I2 10%float 20%float None None).
  - vm_compute. reflexivity.
  - vm_compute. reflexivity.
Defined.

Lemma electron_loss_power_ignores_products_witness :
  Reaction_electron_loss_power Scenario.built Scenario.state
  = Reaction_electron_loss_power
      (Cases.selftest_like [Scenario.I "I0"; Scenario.I "I1"] [0; 1]
         [3; 3; 3]%float 10%float)
      Scenario.state.
Proof.
  apply (electron_loss_power_ignores_products
           BaseReaction Scenario.species_list ["I2"; "I4"] ["I5"] ["I0"; "I1"]
           Scenario.K_diss_I2 10%float None (Some [3; 3; 3]%float) None).
  - vm_compute. reflexivity.
  - vm_compute. reflexivity.
Defined.

Lemma elastic_zero_mass_witness :
  electron_loss_power ElasticScenario.m_e ElasticScenario.k_B
    Cases.massless_built [1e16; 2e18; 30000; 500]%float
  = ([[1e16; 2e18; 30000; 500]%float], inl ZeroDivisionError)
  /\ exists t_e t_s n_e n_s,
       [1e16; 2e18; 30000; 500]%float !! 2 = Some t_e
       /\ [1e16; 2e18; 30000; 500]%float !! (2 + 0) = Some t_s
       /\ [1e16; 2e18; 30000; 500]%float !! 0 = Some n_e
       /\ [1e16; 2e18; 30000; 500]%float !! 1 = Some n_s
       /\ outcome (electron_loss_power (H0:=float64_Frac)
                     ElasticScenario.m_e ElasticScenario.k_B
                     Cases.massless_built [1e16; 2e18; 30000; 500]%float)
          = inr (mul (mul (mul (mul (mul (mul (fromZ 3)
                    (PrimFloat.div ElasticScenario.m_e 0%float))
                    ElasticScenario.k_B) (PrimFloat.sub t_e t_s)) n_e) n_s)
                    (ElasticScenario.K_el [1e16; 2e18; 30000; 500]%float)).
Proof.
  split.
  - apply (elastic_zero_mass (H0:=float_Frac)
             ElasticScenario.m_e ElasticScenario.k_B
             Cases.massless_list "ph" ElasticScenario.K_el 0%float
             Cases.massless_built Cases.massless).
    + vm_compute. reflexivity.
    + reflexivity.
    + reflexivity.
  - apply (elastic_zero_mass (H0:=float64_Frac)
             ElasticScenario.m_e ElasticScenario.k_B
             Cases.massless_list "ph" ElasticScenario.K_el 0%float
             Cases.massless_built Cases.massless
             [1e16; 2e18; 30000; 500]%float).
    + vm_compute. reflexivity.
    + reflexivity.
    + reflexivity.
    + simpl. lia.
Defined.

Lemma elastic_short_state_witness :
  electron_loss_power ElasticScenario.m_e ElasticScenario.k_B
    ElasticScenario.built [1e16; 2e18; 3e18; 30000; 500]%float
  = ([[1e16; 2e18; 3e18; 30000; 500]%float], inl IndexError).
Proof.
  apply (elastic_short_state ElasticScenario.m_e ElasticScenario.k_B
           ElasticScenario.species_list "I2" ElasticScenario.K_el 0%float
           ElasticScenario.built ElasticScenario.molecule).
  - vm_compute. reflexivity.
  - reflexivity.
  - reflexivity.
  - simpl. lia.
Defined.

Lemma elastic_ignores_energy_threshold_witness :
  density_change_rate ElasticScenario.built ElasticScenario.state
  = density_change_rate (Cases.elastic_like 5%float) ElasticScenario.state
  /\ electron_loss_power ElasticScenario.m_e ElasticScenario.k_B
       ElasticScenario.built ElasticScenario.state
     = electron_loss_power ElasticScenario.m_e ElasticScenario.k_B
         (Cases.elastic_like 5%float) ElasticScenario.state.
Proof.
  apply (elastic_ignores_energy_threshold
           ElasticScenario.m_e ElasticScenario.k_B
           ElasticScenario.species_list "I2" ElasticScenario.K_el
           0%float 5%float).
  - vm_compute. reflexivity.
  - vm_compute. reflexivity.
Defined.

Lemma str_of_well_formed_reaction_witness :
  Reaction_str Scenario.built_explicit "K_diss_I2"
  = inr (String.concat " + "
           (map (fun s => term (default zero (stoechio_coeffs Scenario.built_explicit
                     !! get_index_by_instance Scenario.species_list s)) s)
                (reactives Scenario.built_explicit))
         +:+ " -> "
         +:+ String.concat " + "
               (map (fun s => term (default zero (stoechio_coeffs Scenario.built_explicit
                         !! get_index_by_instance Scenario.species_list s)) s)
                    (products Scenario.built_explicit))
         +:+ "          K_r = " +:+ "K_diss_I2").
Proof.
  apply (str_of_well_formed_reaction
           BaseReaction Scenario.species_list ["I2"; "I4"] ["I5"]
           Scenario.K_diss_I2 10%float (Some [0; 0; 1; 0; 1; 2]%float) None).
  - vm_compute. reflexivity.
  - reflexivity.
Defined.

Lemma str_of_default_reaction_witness :
  Reaction_str Scenario.built "K_diss_I2"
  = inr (String.concat " + " (map (term one) (reactives Scenario.built))
         +:+ " -> "
         +:+ String.concat " + "
               (map (fun p =>
                       term (if decide (get_index_by_instance Scenario.species_list p
                                        ∈ reactives_indices Scenario.built)
                             then one else zero) p)
                    (products Scenario.built))
         +:+ "          K_r = " +:+ "K_diss_I2").
Proof.
  apply (str_of_default_reaction
           BaseReaction Scenario.species_list ["I2"; "I4"] ["I5"]
           Scenario.K_diss_I2 10%float None None).
  - by left.
  - vm_compute. reflexivity.
Defined.

Lemma str_short_coeffs_witness :
  Reaction_str
    (Cases.selftest_like [Scenario.I "I5"] [5] [1; 1; 1]%float 10%float)
    "K_diss_I2"
  = inl IndexError.
Proof.
  apply (str_short_coeffs
           BaseReaction Scenario.species_list ["I2"; "I4"] ["I5"]
           Scenario.K_diss_I2 10%float (Some [1; 1; 1]%float) None
           (Cases.selftest_like [Scenario.I "I5"] [5] [1; 1; 1]%float 10%float)
           "K_diss_I2" 4).
  - vm_compute. reflexivity.
  - left. simpl. apply list_elem_of_In. simpl. tauto.
  - simpl. lia.
Defined.
